(** * Farm disease prediction client: symptom selection and request control

    A shallow embedding of the client-side logic of the repository:
    - [frontend/src/App.jsx]: the application component ([RiskBadge],
      [filteredSymptoms], [toggle], [clearAll], [onPredict] and the
      catalog-load effect);
    - [frontend/src/components/SymptomSelector.jsx]: [filtered], [toggle],
      [removeChip];
    - [frontend/src/components/PredictionResult.jsx]: [riskColor];
    - [services/api]: [getSymptoms], [predict].

    React state is modelled by explicit state passing: a handler maps the
    component state to the next state together with the HTTP requests it
    issues.  The suspended half of an [async] handler is a second function
    that is run when the promise settles. *)

From Stdlib Require Import QArith_base.
From Stdlib Require Import String Ascii NArith Bool Arith Lia List.
Import ListNotations.
Close Scope Q_scope.
Open Scope nat_scope.

Set Implicit Arguments.

(** ** JavaScript strings and arrays *)

Module JS.

(** A JavaScript string is a sequence of UTF-16 code units. *)
Definition jsstring := list N.

(** String literals of the source; every literal that is processed by the
    modelled code is Basic Latin, one code unit per character. *)
Definition js (s : string) : jsstring :=
  map N_of_ascii (list_ascii_of_string s).

(** The empty string literal. *)
Definition empty : jsstring := [].

(** [a === b] on strings. *)
Fixpoint str_eqb (a b : jsstring) : bool :=
  match a, b with
  | [], [] => true
  | c :: a', d :: b' => N.eqb c d && str_eqb a' b'
  | _, _ => false
  end.

(** Lower case of one code unit of plain text: A-Z go to a-z, every other
    unit stays. *)
Definition lowerUnit (c : N) : N :=
  if (65 <=? c)%N && (c <=? 90)%N then (c + 32)%N else c.

(** Plain text: code units of Basic Latin and of the Telugu block, the two
    scripts of the catalog and of the labels of the service.  None of them
    is a surrogate, and none but A-Z has a lower-case mapping. *)
Definition isPlain (c : N) : bool :=
  ((c <? 128) || (3072 <=? c) && (c <=? 3199))%N.

Definition Plain (s : jsstring) : Prop := forallb isPlain s = true.

(** [String.prototype.toLowerCase] is a built-in of the host: it follows the
    Unicode case mappings, which the repository does not contain.  It is
    taken as given, with the two facts about it that are used: plain text
    is lower-cased unit by unit, and a stretch of plain text inside any
    string is lower-cased unit by unit in place (the mapping works code
    point by code point from left to right, and its one context rule, the
    final sigma, concerns no plain unit). *)
Class StringBuiltins := {
  toLowerCase : jsstring -> jsstring;
  toLowerCase_plain :
    forall w, Plain w -> toLowerCase w = map lowerUnit w;
  toLowerCase_within :
    forall a w b, Plain w ->
                  exists x y, toLowerCase (a ++ w ++ b)
                              = x ++ map lowerUnit w ++ y
}.
Arguments toLowerCase_plain {_} w _.
Arguments toLowerCase_within {_} a w b _.

(** The mapping that lower-cases A-Z and leaves every other unit has both
    facts, and is the built-in on plain text; examples on plain text are
    evaluated with it. *)
Definition plainLowerCase : StringBuiltins :=
  Build_StringBuiltins (map lowerUnit)
    (fun w _ => eq_refl)
    (fun a w b _ =>
       ex_intro _ (map lowerUnit a)
         (ex_intro _ (map lowerUnit b)
            (eq_trans (map_app lowerUnit a (w ++ b))
               (f_equal (app (map lowerUnit a))
                        (map_app lowerUnit w b))))).

(** The code units removed by [String.prototype.trim]: ECMAScript WhiteSpace
    and LineTerminator. *)
Definition isWhiteSpace (c : N) : bool :=
  ((9 <=? c) && (c <=? 13) || (c =? 32) || (c =? 160) || (c =? 5760)
   || (8192 <=? c) && (c <=? 8202) || (c =? 8232) || (c =? 8233)
   || (c =? 8239) || (c =? 8287) || (c =? 12288) || (c =? 65279))%N.

Fixpoint trimStart (s : jsstring) : jsstring :=
  match s with
  | [] => []
  | c :: s' => if isWhiteSpace c then trimStart s' else s
  end.

Definition trimEnd (s : jsstring) : jsstring := rev (trimStart (rev s)).

Definition trim (s : jsstring) : jsstring := trimEnd (trimStart s).

(** [s.startsWith(t)], the test [includes] makes at each position. *)
Fixpoint startsWith (s t : jsstring) {struct t} : bool :=
  match t, s with
  | [], _ => true
  | _ :: _, [] => false
  | c :: t', d :: s' => N.eqb c d && startsWith s' t'
  end.

(** [String.prototype.includes]: [t] occurs in [s] at some position. *)
Fixpoint includes (s t : jsstring) : bool :=
  startsWith s t ||
  match s with
  | [] => false
  | _ :: s' => includes s' t
  end.

(** [!q] for a string: only the empty string is falsy. *)
Definition falsy (s : jsstring) : bool :=
  match s with [] => true | _ :: _ => false end.

(** [Array.prototype.includes] on an array of strings. *)
Definition arrayIncludes (a : list jsstring) (x : jsstring) : bool :=
  existsb (fun y => str_eqb y x) a.

(** [a.filter(x => x !== en)]. *)
Definition without (a : list jsstring) (en : jsstring) : list jsstring :=
  filter (fun x => negb (str_eqb x en)) a.

(** [Map] with string keys: the entries in insertion order; [set] on a key
    that is present replaces its value in place. *)
Definition Map (V : Type) : Type := list (jsstring * V).

Fixpoint mapSet {V} (k : jsstring) (v : V) (m : Map V) : Map V :=
  match m with
  | [] => [(k, v)]
  | (k', v') :: m' =>
      if str_eqb k' k then (k', v) :: m' else (k', v') :: mapSet k v m'
  end.

(** [new Map(entries)]: the entries are [set] one after the other. *)
Definition newMap {V} (entries : list (jsstring * V)) : Map V :=
  fold_left (fun m e => mapSet (fst e) (snd e) m) entries [].

(** [map.get(k)]; [None] is [undefined]. *)
Fixpoint mapGet {V} (k : jsstring) (m : Map V) : option V :=
  match m with
  | [] => None
  | (k', v) :: m' => if str_eqb k' k then Some v else mapGet k m'
  end.

(** The em dash shown for a missing text. *)
Definition emDash : jsstring := [8212%N].

(** [Array.prototype.join] on an array of strings. *)
Fixpoint join (sep : jsstring) (l : list jsstring) : jsstring :=
  match l with
  | [] => []
  | [x] => x
  | x :: l' => x ++ sep ++ join sep l'
  end.

End JS.

Import JS.

(** ** Wire formats of the prediction service *)

(** A catalog entry [{en, te, display}]. *)
Record Symptom := mkSymptom {
  en : jsstring;
  te : jsstring;
  display : jsstring
}.

(** A descriptor of the prediction response (animal, symptom, disease, risk,
    guidance): an object with the same three members, each of which may be
    missing, since nothing checks the response. *)
Record Descriptor := mkDescriptor {
  d_en : option jsstring;
  d_te : option jsstring;
  d_display : option jsstring
}.

(** [o?.display] for a descriptor that may be missing. *)
Definition displayOf (o : option Descriptor) : option jsstring :=
  match o with
  | Some d => d_display d
  | None => None
  end.

Module Api.

(** Body of [GET /symptoms]: the [symptoms] member may be missing or null. *)
Record SymptomsBody := mkSymptomsBody {
  body_symptoms : option (list Symptom)
}.

(** Payload of [POST /predict]. *)
Record PredictPayload := mkPayload {
  req_animal : jsstring;
  req_symptoms : list jsstring;
  req_top_k : N
}.

Record Prediction := mkPrediction {
  disease : option Descriptor;
  probability_percent : option Q
}.

Record Risk := mkRisk {
  overall : option Descriptor;
  explanation : option jsstring
}.

(** Body of a [/predict] response.  Nothing in the client checks it against
    a schema, so every member is optional on the wire. *)
Record PredictionResult := mkResult {
  res_animal : option Descriptor;
  res_symptoms : option (list Descriptor);
  res_predictions : option (list Prediction);
  res_risk : option Risk;
  res_prevention : option Descriptor;
  res_precautions : option Descriptor
}.

Inductive Request :=
| GET (path : jsstring)
| POST (path : jsstring) (payload : PredictPayload).

(** What the transport reports for one request. *)
Inductive Transport (A : Type) :=
| NetworkError
| TimedOut
| Responded (status : N) (data : A).
Arguments NetworkError {A}.
Arguments TimedOut {A}.

Inductive Promise (A : Type) :=
| Fulfilled (value : A)
| Rejected.
Arguments Rejected {A}.

(** axios' default [validateStatus]. *)
Definition validateStatus (status : N) : bool :=
  ((200 <=? status) && (status <? 300))%N.

(** [await api.get(..)] / [await api.post(..)]: the response [r] when the
    status validates, a rejection otherwise; the value kept is [r.data]. *)
Definition axiosData {A} (t : Transport A) : Promise A :=
  match t with
  | Responded status data =>
      if validateStatus status then Fulfilled data else Rejected
  | NetworkError | TimedOut => Rejected
  end.

(** An HTTP call: the request that is sent and what the caller is resumed
    with once the transport has answered. *)
Record Call (A B : Type) := mkCall {
  request : Request;
  resume : Transport A -> Promise B
}.

(** [getSymptoms]: [r.data?.symptoms ?? []]. *)
Definition getSymptoms : Call (option SymptomsBody) (list Symptom) :=
  mkCall (GET (js "/symptoms"))
    (fun t =>
       match axiosData t with
       | Fulfilled data =>
           Fulfilled
             match data with
             | Some body =>
                 match body_symptoms body with
                 | Some l => l
                 | None => []
                 end
             | None => []
             end
       | Rejected => Rejected
       end).

(** [predict(payload)]: [r.data]. *)
Definition predict (payload : PredictPayload)
  : Call PredictionResult PredictionResult :=
  mkCall (POST (js "/predict") payload) (fun t => axiosData t).

(** [API_BASE]: [import.meta.env.VITE_API_BASE_URL?.trim() || default];
    the setting is [None] when the variable is not defined. *)
Definition defaultBase : jsstring := js "http://127.0.0.1:8000".

Definition API_BASE (VITE_API_BASE_URL : option jsstring) : jsstring :=
  match VITE_API_BASE_URL with
  | Some v => if falsy (trim v) then defaultBase else trim v
  | None => defaultBase
  end.

End Api.

(** ** components/SymptomSelector.jsx *)

Module SymptomSelector.

(** [filtered]; the guard [s.display || empty string] is [s.display] itself
    for a string. *)
Definition filtered {B : StringBuiltins}
           (allSymptoms : list Symptom) (query : jsstring)
  : list Symptom :=
  let q := toLowerCase (trim query) in
  if falsy q then allSymptoms
  else filter (fun s =>
                 includes (toLowerCase (display s)) q
                 || includes (toLowerCase (en s)) q
                 || includes (toLowerCase (te s)) q) allSymptoms.

Section Props.
Variables (max : nat) (disabled : bool).

(** [toggle]: the value handed to [setSelected], or the unchanged
    selection when the handler returns without calling it. *)
Definition toggle (selected : list jsstring) (en : jsstring)
  : list jsstring :=
  if disabled then selected
  else if arrayIncludes selected en then without selected en
  else if max <=? length selected then selected
  else selected ++ [en].

Definition removeChip (selected : list jsstring) (en : jsstring)
  : list jsstring :=
  if disabled then selected else without selected en.

(** [blocked] of the checkbox of [en]: the checkbox is disabled and its
    label carries the "(max N)" caption. *)
Definition blocked (selected : list jsstring) (en : jsstring) : bool :=
  negb (arrayIncludes selected en) && (max <=? length selected).
End Props.

(** Default props: [min=3, max=8, disabled=false]. *)
Definition default_min : nat := 3.
Definition default_max : nat := 8.

(** The entry shown for a selected identifier that the catalog does not
    have: [{ en, te: dash, display: en / dash }]. *)
Definition dash : jsstring := [8212%N].

Definition placeholder (en : jsstring) : Symptom :=
  mkSymptom en dash (en ++ js " / " ++ dash).

(** [selectedDisplay]: one catalog entry (or placeholder) per chip. *)
Definition selectedDisplay (allSymptoms : list Symptom)
           (selected : list jsstring) : list Symptom :=
  let map := newMap (List.map (fun s => (en s, s)) allSymptoms) in
  List.map (fun en =>
              match mapGet en map with
              | Some s => s
              | None => placeholder en
              end) selected.

End SymptomSelector.

(** ** components/PredictionResult.jsx *)

Module PredictionResult.

(** [riskColor]; the argument may be undefined or null, and is then
    replaced by the empty string (default parameter and [||] guard). *)
Definition riskColor {B : StringBuiltins} (text : option jsstring)
  : string :=
  let t := toLowerCase (match text with Some s => s | None => empty end) in
  if includes t (js "high") then "error"
  else if includes t (js "medium") then "warning"
  else if includes t (js "low") then "success"
  else "default".

(** [x || dash] for a text that may be undefined. *)
Definition orDash (o : option jsstring) : jsstring :=
  match o with
  | Some s => if falsy s then emDash else s
  | None => emDash
  end.

(** [result.animal?.display || dash]. *)
Definition animalText (r : Api.PredictionResult) : jsstring :=
  orDash (displayOf (Api.res_animal r)).

(** The first cell of each table row, [p.disease?.display || dash];
    [None] when [result.predictions] is missing and no row is made. *)
Definition diseaseNames (r : Api.PredictionResult)
  : option (list jsstring) :=
  option_map (map (fun p => orDash (displayOf (Api.disease p))))
             (Api.res_predictions r).

(** [result.risk?.overall?.display]. *)
Definition riskDisplay (r : Api.PredictionResult) : option jsstring :=
  match Api.res_risk r with
  | Some k => displayOf (Api.overall k)
  | None => None
  end.

(** The risk chip: its label and its colour. *)
Definition riskChip {B : StringBuiltins} (r : Api.PredictionResult)
  : jsstring * string :=
  (orDash (riskDisplay r), riskColor (riskDisplay r)).

End PredictionResult.

(** ** App.jsx *)

Module App.

(** [RiskBadge]: the class of the badge; the label is shown as it is. *)
Definition RiskBadge {B : StringBuiltins} (label : jsstring) : string :=
  let isHigh := includes (toLowerCase label) (js "high risk") in
  let isMed := includes (toLowerCase label) (js "medium risk") in
  if isHigh then "badge badge-high"
  else if isMed then "badge badge-med"
  else "badge badge-low".

(** The [<option>] values of the animal [<select>]. *)
Inductive Species := Cow | Buffalo | Goat | Sheep.

Definition optionValue (a : Species) : jsstring :=
  match a with
  | Cow => js "Cow"
  | Buffalo => js "Buffalo"
  | Goat => js "Goat"
  | Sheep => js "Sheep"
  end.

(** The seven [useState] cells of [App]. *)
Record State := mkState {
  animal : jsstring;
  allSymptoms : list Symptom;
  selected : list jsstring;
  query : jsstring;
  result : option Api.PredictionResult;
  error : jsstring;
  loading : bool
}.

(** [useState] initial values. *)
Definition initialState : State :=
  mkState (js "Cow") [] [] empty None empty false.

(** A piece of handler code: it reads and writes the state cells and may
    send HTTP requests, which are collected in order. *)
Definition Handler (A : Type) : Type :=
  State -> A * State * list Api.Request.

Definition ret {A} (a : A) : Handler A := fun st => (a, st, []).

Definition bind {A B} (h : Handler A) (k : A -> Handler B) : Handler B :=
  fun st =>
    let '(a, st1, r1) := h st in
    let '(b, st2, r2) := k a st1 in
    (b, st2, r1 ++ r2).

Declare Scope handler_scope.
Delimit Scope handler_scope with handler.
Notation "x <- h ;; k" := (bind h (fun x => k))
  (at level 61, h at next level, right associativity) : handler_scope.
Notation "h ;; k" := (bind h (fun _ => k))
  (at level 61, right associativity) : handler_scope.
Local Open Scope handler_scope.

Definition read {A} (cell : State -> A) : Handler A :=
  fun st => (cell st, st, []).

Definition send (r : Api.Request) : Handler unit :=
  fun st => (tt, st, [r]).

Definition setAnimal (v : jsstring) : Handler unit :=
  fun st => (tt, mkState v (allSymptoms st) (selected st) (query st)
                   (result st) (error st) (loading st), []).

Definition setAllSymptoms (v : list Symptom) : Handler unit :=
  fun st => (tt, mkState (animal st) v (selected st) (query st)
                   (result st) (error st) (loading st), []).

Definition setSelected (v : list jsstring) : Handler unit :=
  fun st => (tt, mkState (animal st) (allSymptoms st) v (query st)
                   (result st) (error st) (loading st), []).

Definition setQuery (v : jsstring) : Handler unit :=
  fun st => (tt, mkState (animal st) (allSymptoms st) (selected st) v
                   (result st) (error st) (loading st), []).

Definition setResult (v : option Api.PredictionResult) : Handler unit :=
  fun st => (tt, mkState (animal st) (allSymptoms st) (selected st) (query st)
                   v (error st) (loading st), []).

Definition setError (v : jsstring) : Handler unit :=
  fun st => (tt, mkState (animal st) (allSymptoms st) (selected st) (query st)
                   (result st) v (loading st), []).

Definition setLoading (v : bool) : Handler unit :=
  fun st => (tt, mkState (animal st) (allSymptoms st) (selected st) (query st)
                   (result st) (error st) v, []).

(** State and requests after a handler has run. *)
Definition stateAfter (h : Handler unit) (st : State) : State :=
  snd (fst (h st)).

Definition requestsOf (h : Handler unit) (st : State) : list Api.Request :=
  snd (h st).

(** The messages shown in the alert box. *)
Definition msgLoadFailed : jsstring :=
  js "Failed to load symptoms. Please start backend (FastAPI).".
Definition msgMaximum : jsstring := js "You can select maximum 8 symptoms.".
Definition msgMinimum : jsstring := js "Select at least 3 symptoms.".
Definition msgPredictFailed : jsstring :=
  js "Prediction failed. Check backend is running on port 8000.".

(** The mount effect up to the request, and its [then]/[catch]. *)
Definition loadCatalog : Handler unit := send (Api.request Api.getSymptoms).

Definition loadCatalog_settled (p : Api.Promise (list Symptom))
  : Handler unit :=
  match p with
  | Api.Fulfilled l => setAllSymptoms l
  | Api.Rejected => setError msgLoadFailed
  end.

(** [filteredSymptoms]. *)
Definition filteredSymptoms {B : StringBuiltins}
           (allSymptoms : list Symptom) (query : jsstring)
  : list Symptom :=
  let q := toLowerCase (trim query) in
  if falsy q then allSymptoms
  else filter (fun s => includes (toLowerCase (display s)) q) allSymptoms.

(** [toggle]: the updater given to [setSelected], run on the current
    selection. *)
Definition toggle (en : jsstring) : Handler unit :=
  prev <- read selected ;;
  if arrayIncludes prev en then setSelected (without prev en)
  else if 8 <=? List.length prev then
    setError msgMaximum ;; setSelected prev
  else setSelected (prev ++ [en]).

(** [onRemove] of a pill. *)
Definition removePill (en : jsstring) : Handler unit :=
  prev <- read selected ;;
  setSelected (without prev en).

Definition clearAll : Handler unit :=
  setSelected [] ;; setQuery empty ;; setResult None ;; setError empty.

(** [onPredict] up to the [await]. *)
Definition onPredict : Handler unit :=
  setError empty ;;
  setResult None ;;
  sel <- read selected ;;
  if List.length sel <? 3 then setError msgMinimum
  else
    setLoading true ;;
    a <- read animal ;;
    send (Api.request (Api.predict (Api.mkPayload a sel 3))).

(** [onPredict] from the [await] on: [try] / [catch] / [finally]. *)
Definition onPredict_settled (p : Api.Promise Api.PredictionResult)
  : Handler unit :=
  match p with
  | Api.Fulfilled data => setResult (Some data)
  | Api.Rejected => setError msgPredictFailed
  end ;;
  setLoading false.

(** The output card reads [result.animal.display],
    [result.risk.overall.display], [result.symptoms.map],
    [result.predictions.map] and [p.disease.display] without a guard, and
    [RiskBadge] calls [toLowerCase] on the risk label; only [prevention] and
    [precautions] are tested first.  [outputRenders] says that none of
    these throws: the animal, the risk, its overall descriptor and the
    display label of that descriptor, the two lists and the disease of
    every prediction are there. *)
Definition isSome {A} (o : option A) : bool :=
  match o with Some _ => true | None => false end.

Definition outputRenders (r : Api.PredictionResult) : bool :=
  isSome (Api.res_animal r)
  && match Api.res_risk r with
     | Some k => isSome (displayOf (Api.overall k))
     | None => false
     end
  && isSome (Api.res_symptoms r)
  && match Api.res_predictions r with
     | Some ps => forallb (fun p => isSome (Api.disease p)) ps
     | None => false
     end.

(** The text React shows for a child that may be undefined: nothing. *)
Definition textOf (o : option jsstring) : jsstring :=
  match o with
  | Some s => s
  | None => empty
  end.

(** The output card as data.  A row of the predictions table: the first
    row is highlighted and marked "Most likely"; the probability is passed
    on as it came. *)
Record Row := mkRow {
  row_highlight : bool;
  row_disease : jsstring;
  row_percent : option Q
}.

Record Card := mkCard {
  card_animal : jsstring;
  card_riskLabel : jsstring;
  card_riskClass : string;
  card_symptoms : jsstring;
  card_rows : list Row;
  card_explanation : jsstring;
  card_prevention : jsstring;
  card_precautions : jsstring
}.

(** [result.predictions.map((p, i) => ...)] from index [i] on; [None] when
    [p.disease.display] throws. *)
Fixpoint rowsFrom (i : nat) (ps : list Api.Prediction) : option (list Row) :=
  match ps with
  | [] => Some []
  | p :: ps' =>
      match Api.disease p, rowsFrom (S i) ps' with
      | Some d, Some rows =>
          Some (mkRow (i =? 0) (textOf (d_display d))
                      (Api.probability_percent p)
                  :: rows)
      | _, _ => None
      end
  end.

(** [x ? x.display : dash] for the two guidance panels. *)
Definition panelText (o : option Descriptor) : jsstring :=
  match o with
  | Some d => textOf (d_display d)
  | None => emDash
  end.

(** The card shown for a result whose members, where present, are of the
    kinds of the contract (descriptors are objects, the two lists are arrays
    of objects, texts are strings); [None] when rendering it throws.
    [join] turns an undefined element into the empty string. *)
Definition outputCard {B : StringBuiltins} (r : Api.PredictionResult)
  : option Card :=
  match Api.res_animal r, Api.res_risk r,
        Api.res_symptoms r, Api.res_predictions r with
  | Some a, Some k, Some ss, Some ps =>
      match displayOf (Api.overall k), rowsFrom 0 ps with
      | Some label, Some rows =>
          Some (mkCard (textOf (d_display a)) label (RiskBadge label)
                       (join (js ", ")
                             (map (fun x => textOf (d_display x)) ss))
                       rows
                       (textOf (Api.explanation k))
                       (panelText (Api.res_prevention r))
                       (panelText (Api.res_precautions r)))
      | _, _ => None
      end
  | _, _, _, _ => None
  end.

(** [selectedDisplay]: the text of each pill, [map.get(en) || en]. *)
Definition selectedDisplay (allSymptoms : list Symptom)
           (selected : list jsstring) : list jsstring :=
  let map := newMap (List.map (fun s => (en s, display s)) allSymptoms) in
  List.map (fun en =>
              match mapGet en map with
              | Some d => if falsy d then en else d
              | None => en
              end) selected.

(** *** The page as a transition system *)

(** The component state together with the network: every request sent so
    far, and the requests that have not been answered yet. *)
Record World := mkWorld {
  ui : State;
  sent : list Api.Request;
  inFlight : list Api.Request
}.

Definition dispatch (h : Handler unit) (w : World) : World :=
  mkWorld (stateAfter h (ui w))
          (sent w ++ requestsOf h (ui w))
          (inFlight w ++ requestsOf h (ui w)).

Definition isPredict (r : Api.Request) : bool :=
  match r with Api.POST _ _ => true | Api.GET _ => false end.

Definition isCatalog (r : Api.Request) : bool := negb (isPredict r).

(** The oldest unanswered request of a kind, taken out of the list. *)
Fixpoint answer (kind : Api.Request -> bool) (l : list Api.Request)
  : option (Api.Request * list Api.Request) :=
  match l with
  | [] => None
  | r :: l' =>
      if kind r then Some (r, l')
      else match answer kind l' with
           | Some (r', rest) => Some (r', r :: rest)
           | None => None
           end
  end.

Definition outstanding (w : World) : nat :=
  List.length (filter isPredict (inFlight w)).

Inductive Event :=
| ChangeAnimal (a : Species)
| ChangeQuery (q : jsstring)
| ClickSymptom (en : jsstring)
| ClickPillRemove (en : jsstring)
| ClickClear
| ClickPredict
| CatalogSettled (t : Api.Transport (option Api.SymptomsBody))
| PredictSettled (t : Api.Transport Api.PredictionResult).

(** One event of the page.  The Predict button carries
    [disabled={loading}]: a click on it reaches [onPredict] only when
    [loading] is false.  A settlement needs a request of its kind in flight
    (there is nothing to answer otherwise). *)
Definition step (w : World) (e : Event) : option World :=
  match e with
  | ChangeAnimal a => Some (dispatch (setAnimal (optionValue a)) w)
  | ChangeQuery q => Some (dispatch (setQuery q) w)
  | ClickSymptom en => Some (dispatch (toggle en) w)
  | ClickPillRemove en => Some (dispatch (removePill en) w)
  | ClickClear => Some (dispatch clearAll w)
  | ClickPredict =>
      if loading (ui w) then Some w else Some (dispatch onPredict w)
  | CatalogSettled t =>
      match answer isCatalog (inFlight w) with
      | Some (_, rest) =>
          Some (dispatch
                  (loadCatalog_settled (Api.resume Api.getSymptoms t))
                  (mkWorld (ui w) (sent w) rest))
      | None => None
      end
  | PredictSettled t =>
      match answer isPredict (inFlight w) with
      | Some (Api.POST _ payload, rest) =>
          Some (dispatch
                  (onPredict_settled (Api.resume (Api.predict payload) t))
                  (mkWorld (ui w) (sent w) rest))
      | _ => None
      end
  end.

Fixpoint run (w : World) (es : list Event) : option World :=
  match es with
  | [] => Some w
  | e :: es' =>
      match step w e with
      | Some w' => run w' es'
      | None => None
      end
  end.

(** The page after mounting: the catalog request has been sent. *)
Definition mounted : World :=
  dispatch loadCatalog (mkWorld initialState [] []).

End App.

(** ** Vocabulary of the specification *)

(** [t] occurs in [s]. *)
Definition Substring (t s : jsstring) : Prop :=
  exists a b, s = a ++ t ++ b.

(** Every code unit of [q] is removed by [trim]. *)
Definition whitespaceOnly (q : jsstring) : Prop :=
  Forall (fun c => isWhiteSpace c = true) q.

(** [label] contains [q] as a case-insensitive substring: the lower case of
    [q] occurs in the lower case of [label]. *)
Definition containsCI {B : StringBuiltins} (label q : jsstring) : Prop :=
  Substring (toLowerCase q) (toLowerCase label).

(** [w] occurs in [label] up to the case of its letters: some stretch of
    plain text in [label] differs from [w] at most in A-Z against a-z. *)
Definition occursIgnoringCase (w label : jsstring) : Prop :=
  exists a v b,
    label = a ++ v ++ b /\ Plain v /\ map lowerUnit v = map lowerUnit w.

(** [a] is [b] with some elements left out, the others in order. *)
Inductive Subsequence {A : Type} : list A -> list A -> Prop :=
| Subsequence_nil : Subsequence [] []
| Subsequence_keep x a b : Subsequence a b -> Subsequence (x :: a) (x :: b)
| Subsequence_drop x a b : Subsequence a b -> Subsequence a (x :: b).

(** The symptom matches the raw query on its identifier or on one of its
    labels. *)
Definition matchesQuery {B : StringBuiltins} (s : Symptom) (q : jsstring)
  : Prop :=
  containsCI (en s) q \/ containsCI (te s) q \/ containsCI (display s) q.

(** The search contract read with the query as typed. *)
Definition FiltersByQuery {B : StringBuiltins}
           (f : list Symptom -> jsstring -> list Symptom)
  : Prop :=
  forall L q,
    (whitespaceOnly q -> f L q = L) /\
    (~ whitespaceOnly q ->
     Subsequence (f L q) L /\
     forall s, In s (f L q) <-> In s L /\ matchesQuery s q).

(** What holds of the page between two events: the selection is within its
    bound and duplicate-free, a prediction request is unanswered exactly
    while [loading] is set, and no result is held meanwhile. *)
Definition Consistent (w : App.World) : Prop :=
  length (App.selected (App.ui w)) <= 8 /\
  NoDup (App.selected (App.ui w)) /\
  App.outstanding w = (if App.loading (App.ui w) then 1 else 0) /\
  (App.loading (App.ui w) = true -> App.result (App.ui w) = None).

(** The transport reports a failure: no response, or a status outside
    2xx. *)
Definition transportFailure {A} (t : Api.Transport A) : Prop :=
  match t with
  | Api.NetworkError | Api.TimedOut => True
  | Api.Responded status _ => Api.validateStatus status = false
  end.

(** A failed prediction call in the wide sense: a transport failure, or a
    2xx response whose payload the output card cannot render. *)
Definition predictionFailure (t : Api.Transport Api.PredictionResult)
  : Prop :=
  match t with
  | Api.Responded status data =>
      Api.validateStatus status = false \/ App.outputRenders data = false
  | _ => True
  end.

(** A request as the page builds it: the catalog request, or a prediction
    request for one of the four animals with 3 to 8 distinct symptoms and
    [top_k] 3. *)
Definition wellFormedRequest (r : Api.Request) : Prop :=
  match r with
  | Api.GET path => path = js "/symptoms"
  | Api.POST path p =>
      path = js "/predict" /\
      Api.req_top_k p = 3%N /\
      3 <= length (Api.req_symptoms p) <= 8 /\
      NoDup (Api.req_symptoms p) /\
      exists a, Api.req_animal p = App.optionValue a
  end.

(** Catalog requests among a list of requests. *)
Definition catalogRequests (l : list Api.Request) : nat :=
  length (filter App.isCatalog l).

(** What holds of the page and its requests between two events, on top of
    [Consistent]: the animal is an option of the select, every request sent
    is well formed, the catalog was requested once, and the catalog is
    empty as long as that request is unanswered. *)
Definition Orderly (w : App.World) : Prop :=
  Consistent w /\
  (exists a, App.animal (App.ui w) = App.optionValue a) /\
  Forall wellFormedRequest (App.sent w) /\
  catalogRequests (App.sent w) = 1 /\
  catalogRequests (App.inFlight w) <= 1 /\
  (catalogRequests (App.inFlight w) = 1 -> App.allSymptoms (App.ui w) = []).

(** ** Sample data *)

Module Sample.

Definition te_fever : jsstring := [3100; 3149; 3125; 3120; 3074]%N.
Definition te_cough : jsstring := [3110; 3095; 3149; 3095; 3137]%N.
Definition te_limp : jsstring := [3093; 3137; 3074; 3103; 3137; 3103]%N.
Definition te_nasal : jsstring :=
  [3118; 3137; 3093; 3149; 3093; 3137; 32; 3093; 3134; 3120; 3105; 3074]%N.

Definition fever : Symptom :=
  mkSymptom (js "fever") te_fever (js "Fever / " ++ te_fever).
Definition cough : Symptom :=
  mkSymptom (js "cough") te_cough (js "Cough / " ++ te_cough).
Definition limp : Symptom :=
  mkSymptom (js "limp") te_limp (js "Limping / " ++ te_limp).
Definition nasal : Symptom :=
  mkSymptom (js "nasal_discharge") te_nasal
            (js "Nasal discharge / " ++ te_nasal).

Definition catalog : list Symptom := [fever; cough; limp; nasal].

(** Scenario events: the three symptoms are picked, then Predict is
    clicked. *)
Definition pickThree : list App.Event :=
  [App.ClickSymptom (en fever); App.ClickSymptom (en cough);
   App.ClickSymptom (en limp)].

Definition submission : list App.Event := pickThree ++ [App.ClickPredict].

(** A catalog entry as the service echoes it. *)
Definition echo (s : Symptom) : Descriptor :=
  mkDescriptor (Some (en s)) (Some (te s)) (Some (display s)).

(** A response of the service to that submission. *)
Definition footRot : Api.PredictionResult :=
  Api.mkResult
    (Some (mkDescriptor (Some (js "Cow")) (Some [3078; 3125; 3137]%N)
                        (Some (js "Cow / " ++ [3078; 3125; 3137]%N))))
    (Some [echo fever; echo cough; echo limp])
    (Some [Api.mkPrediction
             (Some (mkDescriptor (Some (js "Foot Rot")) None
                                 (Some (js "Foot Rot"))))
             (Some (145 # 2)%Q)])
    (Some (Api.mkRisk (Some (mkDescriptor (Some (js "High Risk")) None
                                          (Some (js "High Risk"))))
                      (Some (js "Top prediction above 70%"))))
    None None.

(** The body [{ animal: {}, risk: { overall: {} }, symptoms: [],
    predictions: [] }]: every member the card reads is there, but the risk
    has no display label. *)
Definition unlabelledRisk : Api.PredictionResult :=
  Api.mkResult
    (Some (mkDescriptor None None None))
    (Some [])
    (Some [])
    (Some (Api.mkRisk (Some (mkDescriptor None None None)) None))
    None None.

(** The body [{}]. *)
Definition emptyObject : Api.PredictionResult :=
  Api.mkResult None None None None None None.

(** The page after a list of events (the mounted page if the list cannot
    happen). *)
Definition pageAfter (es : list App.Event) : App.World :=
  match App.run App.mounted es with
  | Some w => w
  | None => App.mounted
  end.

(** A page that holds a result and two selected symptoms. *)
Definition resultThenTwo : list App.Event :=
  submission
  ++ [App.PredictSettled (Api.Responded 200 footRot);
      App.ClickPillRemove (en limp)].

End Sample.

(** * Properties *)

(** Splits a conjunction of equivalences between literal results and closes
    the cases decided by the literals. *)
Ltac string_cases :=
  repeat match goal with
         | |- _ /\ _ => split
         | |- _ <-> _ => split
         | |- _ -> _ => intro
         | H : _ /\ _ |- _ => destruct H
         end;
  try reflexivity; try discriminate; try congruence; try tauto.

(** ** Strings *)

Section StringFacts.

Lemma str_eqb_eq (a b : jsstring) : str_eqb a b = true <-> a = b.
Proof.
  revert b; induction a as [|c a IH]; intros [|d b]; simpl;
    try (split; [discriminate | discriminate]); try tauto.
  rewrite andb_true_iff, N.eqb_eq, IH.
  split; [intros [-> ->]; reflexivity | intros H; injection H; auto].
Qed.

Lemma str_eqb_refl (a : jsstring) : str_eqb a a = true.
Proof. apply str_eqb_eq; reflexivity. Qed.

Lemma arrayIncludes_In (a : list jsstring) (x : jsstring) :
  arrayIncludes a x = true <-> In x a.
Proof.
  unfold arrayIncludes; rewrite existsb_exists; split.
  - intros (y & Hy & E); apply str_eqb_eq in E; subst; assumption.
  - intros H; exists x; split; [assumption | apply str_eqb_refl].
Qed.

Lemma arrayIncludes_not_In (a : list jsstring) (x : jsstring) :
  arrayIncludes a x = false <-> ~ In x a.
Proof.
  rewrite <- arrayIncludes_In; destruct (arrayIncludes a x); split;
    congruence.
Qed.

Lemma In_without (a : list jsstring) (en x : jsstring) :
  In x (without a en) <-> In x a /\ x <> en.
Proof.
  unfold without; rewrite filter_In, negb_true_iff.
  split; intros [H1 H2]; split; try assumption.
  - intros ->; rewrite str_eqb_refl in H2; discriminate.
  - destruct (str_eqb x en) eqn:E; [apply str_eqb_eq in E; contradiction|].
    reflexivity.
Qed.

Lemma length_without (a : list jsstring) (en : jsstring) :
  length (without a en) <= length a.
Proof. apply filter_length_le. Qed.

Lemma length_without_In (a : list jsstring) (en : jsstring) :
  In en a -> length (without a en) < length a.
Proof.
  unfold without; induction a as [|x a IH]; simpl; [tauto|].
  intros [-> | H].
  - rewrite str_eqb_refl; simpl.
    pose proof (filter_length_le (fun y => negb (str_eqb y en)) a); lia.
  - specialize (IH H); destruct (negb (str_eqb x en)); simpl; lia.
Qed.

Lemma startsWith_prefix (s t : jsstring) :
  startsWith s t = true <-> exists b, s = t ++ b.
Proof.
  revert s; induction t as [|c t IH]; intros s; simpl.
  - split; [intros _; exists s; reflexivity | reflexivity].
  - destruct s as [|d s].
    + split; [discriminate | intros [b H]; discriminate].
    + rewrite andb_true_iff, N.eqb_eq, IH; split.
      * intros [-> [b ->]]; exists b; reflexivity.
      * intros [b H]; injection H as -> ->; split; [reflexivity|].
        exists b; reflexivity.
Qed.

Lemma includes_Substring (s t : jsstring) :
  includes s t = true <-> Substring t s.
Proof.
  unfold Substring; induction s as [|d s IH].
  - simpl; rewrite orb_false_r, startsWith_prefix; split.
    + intros [b H]; exists [], b; assumption.
    + intros (a & b & H); destruct a; simpl in H.
      * exists b; assumption.
      * discriminate.
  - cbn [includes]; rewrite orb_true_iff, startsWith_prefix, IH; split.
    + intros [[b H] | (a & b & H)].
      * exists [], b; assumption.
      * exists (d :: a), b; simpl; rewrite H; reflexivity.
    + intros (a & b & H); destruct a as [|x a]; simpl in H.
      * left; exists b; assumption.
      * right; injection H as _ H; exists a, b; assumption.
Qed.

Lemma includes_not_Substring (s t : jsstring) :
  includes s t = false <-> ~ Substring t s.
Proof.
  rewrite <- includes_Substring; destruct (includes s t); split; congruence.
Qed.

Lemma trimStart_nil (s : jsstring) : trimStart s = [] <-> whitespaceOnly s.
Proof.
  unfold whitespaceOnly; induction s as [|c s IH]; simpl.
  - split; [constructor | reflexivity].
  - destruct (isWhiteSpace c) eqn:E.
    + rewrite IH; split; [intros H; constructor; assumption|].
      intros H; inversion H; assumption.
    + split; [discriminate|].
      intros H; inversion H; congruence.
Qed.

Lemma trimStart_suffix (s : jsstring) :
  exists a, s = a ++ trimStart s /\ whitespaceOnly a.
Proof.
  induction s as [|c s (a & E & W)]; simpl.
  - exists []; split; [reflexivity | constructor].
  - destruct (isWhiteSpace c) eqn:Ec.
    + exists (c :: a); split; [simpl; congruence | constructor; assumption].
    + exists []; split; [reflexivity | constructor].
Qed.

Lemma whitespaceOnly_app (a b : jsstring) :
  whitespaceOnly (a ++ b) <-> whitespaceOnly a /\ whitespaceOnly b.
Proof. apply Forall_app. Qed.

Lemma whitespaceOnly_rev (a : jsstring) :
  whitespaceOnly (rev a) <-> whitespaceOnly a.
Proof.
  unfold whitespaceOnly; rewrite !Forall_forall; split; intros H x Hx;
    apply H; [apply in_rev in Hx | apply in_rev]; assumption.
Qed.

Lemma trim_nil (q : jsstring) : trim q = [] <-> whitespaceOnly q.
Proof.
  unfold trim, trimEnd.
  destruct (trimStart_suffix q) as (a & E & W).
  split.
  - intros H.
    assert (H' : trimStart (rev (trimStart q)) = []).
    { destruct (trimStart (rev (trimStart q))) as [|c l]; [reflexivity|].
      simpl in H; destruct (rev l); discriminate. }
    apply (proj1 (trimStart_nil _)) in H'.
    apply (proj1 (whitespaceOnly_rev _)) in H'.
    assert (Hq : whitespaceOnly (a ++ trimStart q))
      by (apply whitespaceOnly_app; split; assumption).
    rewrite <- E in Hq; exact Hq.
  - intros H; apply (proj2 (trimStart_nil _)) in H; rewrite H; reflexivity.
Qed.

End StringFacts.

(** ** Lower case *)

Section LowerCase.

Context {B : StringBuiltins}.

Lemma Plain_app (a b : jsstring) : Plain (a ++ b) <-> Plain a /\ Plain b.
Proof. unfold Plain; rewrite forallb_app, andb_true_iff; tauto. Qed.

Lemma toLowerCase_nil : toLowerCase [] = [].
Proof. apply (toLowerCase_plain []); reflexivity. Qed.

Lemma falsy_trim (q : jsstring) :
  whitespaceOnly q -> falsy (toLowerCase (trim q)) = true.
Proof.
  intros W; rewrite (proj2 (trim_nil q) W), toLowerCase_nil; reflexivity.
Qed.

(** A literal of plain lower-case text is its own lower case. *)
Lemma toLowerCase_literal (w : jsstring) :
  Plain w -> map lowerUnit w = w -> toLowerCase w = w.
Proof. intros P E; rewrite (toLowerCase_plain w P); exact E. Qed.

Lemma occurs_containsCI (label q : jsstring) :
  Plain q -> occursIgnoringCase q label -> containsCI label q.
Proof.
  intros P (a & v & b & -> & Pv & E).
  destruct (toLowerCase_within a v b Pv) as (x & y & H).
  unfold containsCI; rewrite H, (toLowerCase_plain q P), <- E.
  exists x, y; reflexivity.
Qed.

Lemma containsCI_occurs (label q : jsstring) :
  Plain q -> Plain label -> containsCI label q -> occursIgnoringCase q label.
Proof.
  intros P Pl (x & y & H).
  rewrite (toLowerCase_plain q P), (toLowerCase_plain label Pl) in H.
  apply map_eq_app in H; destruct H as (a & r & -> & Ea & H).
  apply map_eq_app in H; destruct H as (v & b & -> & Ev & Eb).
  exists a, v, b; split; [reflexivity|split; [|exact Ev]].
  apply Plain_app in Pl; destruct Pl as [_ Pl].
  apply Plain_app in Pl; tauto.
Qed.

End LowerCase.

(** ** Symptom search *)

Section Search.

Lemma filter_Subsequence {A} (keep : A -> bool) (l : list A) :
  Subsequence (filter keep l) l.
Proof.
  induction l as [|x l IH]; simpl; [constructor|].
  destruct (keep x); constructor; assumption.
Qed.

Lemma Subsequence_refl {A} (l : list A) : Subsequence l l.
Proof. induction l; constructor; assumption. Qed.

Lemma filter_all {A} (keep : A -> bool) (l : list A) :
  (forall x, In x l -> keep x = true) -> filter keep l = l.
Proof.
  induction l as [|x l IH]; simpl; intros H; [reflexivity|].
  rewrite (H x (or_introl eq_refl)), IH; [reflexivity|].
  intros y Hy; apply H; right; assumption.
Qed.

Lemma Substring_nil (s : jsstring) : Substring [] s.
Proof. exists [], s; reflexivity. Qed.

Context {B : StringBuiltins}.

Lemma includes_containsCI (label q : jsstring) :
  includes (toLowerCase label) (toLowerCase q) = true <-> containsCI label q.
Proof. apply includes_Substring. Qed.

Lemma filteredSymptoms_filter (L : list Symptom) (q : jsstring) :
  App.filteredSymptoms L q =
  filter (fun s => includes (toLowerCase (display s)) (toLowerCase (trim q))) L.
Proof.
  unfold App.filteredSymptoms.
  destruct (falsy (toLowerCase (trim q))) eqn:E; [|reflexivity].
  symmetry; apply filter_all; intros s _.
  destruct (toLowerCase (trim q)); [|discriminate].
  apply includes_Substring, Substring_nil.
Qed.

Lemma filtered_filter (L : list Symptom) (q : jsstring) :
  SymptomSelector.filtered L q =
  filter (fun s =>
            includes (toLowerCase (display s)) (toLowerCase (trim q))
            || includes (toLowerCase (en s)) (toLowerCase (trim q))
            || includes (toLowerCase (te s)) (toLowerCase (trim q))) L.
Proof.
  unfold SymptomSelector.filtered.
  destruct (falsy (toLowerCase (trim q))) eqn:E; [|reflexivity].
  symmetry; apply filter_all; intros s _.
  destruct (toLowerCase (trim q)); [|discriminate].
  rewrite (proj2 (includes_Substring _ [])); [reflexivity|].
  apply Substring_nil.
Qed.

Lemma In_filteredSymptoms (L : list Symptom) (q : jsstring) (s : Symptom) :
  In s (App.filteredSymptoms L q) <->
  In s L /\ containsCI (display s) (trim q).
Proof.
  rewrite filteredSymptoms_filter, filter_In, includes_containsCI; tauto.
Qed.

Lemma In_filtered (L : list Symptom) (q : jsstring) (s : Symptom) :
  In s (SymptomSelector.filtered L q) <->
  In s L /\ (containsCI (display s) (trim q)
             \/ containsCI (en s) (trim q)
             \/ containsCI (te s) (trim q)).
Proof.
  rewrite filtered_filter, filter_In, !orb_true_iff, !includes_containsCI.
  tauto.
Qed.

(** On plain text every lower-casing that has the two facts gives what
    [plainLowerCase] gives. *)
Lemma containsCI_plain (label q : jsstring) :
  Plain label -> Plain q ->
  (containsCI label q <-> containsCI (B := plainLowerCase) label q).
Proof.
  intros Pl Pq; unfold containsCI.
  rewrite (toLowerCase_plain label Pl), (toLowerCase_plain q Pq).
  reflexivity.
Qed.

Lemma filteredSymptoms_plain (L : list Symptom) (q : jsstring) :
  Plain (trim q) -> Forall (fun s => Plain (display s)) L ->
  App.filteredSymptoms L q = App.filteredSymptoms (B := plainLowerCase) L q.
Proof.
  intros Pq PL; unfold App.filteredSymptoms.
  rewrite (toLowerCase_plain (trim q) Pq).
  change (@toLowerCase plainLowerCase) with (map lowerUnit).
  destruct (falsy (map lowerUnit (trim q))); [reflexivity|].
  apply filter_ext_in; intros s I.
  rewrite (toLowerCase_plain (display s)); [reflexivity|].
  exact (proj1 (Forall_forall _ L) PL s I).
Qed.

Lemma filtered_plain (L : list Symptom) (q : jsstring) :
  Plain (trim q) ->
  Forall (fun s => Plain (display s) /\ Plain (en s) /\ Plain (te s)) L ->
  SymptomSelector.filtered L q
  = SymptomSelector.filtered (B := plainLowerCase) L q.
Proof.
  intros Pq PL; unfold SymptomSelector.filtered.
  rewrite (toLowerCase_plain (trim q) Pq).
  change (@toLowerCase plainLowerCase) with (map lowerUnit).
  destruct (falsy (map lowerUnit (trim q))); [reflexivity|].
  apply filter_ext_in; intros s I.
  destruct (proj1 (Forall_forall _ L) PL s I) as (P1 & P2 & P3).
  rewrite (toLowerCase_plain (display s) P1), (toLowerCase_plain (en s) P2),
    (toLowerCase_plain (te s) P3); reflexivity.
Qed.

End Search.

(** C3, as the code has it.  Both searches return exactly the catalog
    entries that match the trimmed query, in catalog order: [App] matches
    on the combined display label only, [SymptomSelector] on the display
    label, the identifier and the Telugu label.  An empty or
    whitespace-only query returns the catalog itself.  The match ignores
    the case of letters: for a query of plain text, an entry is kept as soon
    as the trimmed query occurs in the label up to the case of its letters,
    and for labels of plain text only then. *)
Theorem search_filters_on_trimmed_query
        {B : StringBuiltins} (L : list Symptom) (q : jsstring) :
  (exists keep : Symptom -> bool,
      (forall s, keep s = true <-> containsCI (display s) (trim q)) /\
      App.filteredSymptoms L q = filter keep L) /\
  (exists keep : Symptom -> bool,
      (forall s, keep s = true <->
                 containsCI (display s) (trim q)
                 \/ containsCI (en s) (trim q)
                 \/ containsCI (te s) (trim q)) /\
      SymptomSelector.filtered L q = filter keep L) /\
  Subsequence (App.filteredSymptoms L q) L /\
  Subsequence (SymptomSelector.filtered L q) L /\
  (whitespaceOnly q ->
   App.filteredSymptoms L q = L /\ SymptomSelector.filtered L q = L) /\
  (Plain (trim q) ->
   forall s, In s L ->
     (occursIgnoringCase (trim q) (display s) ->
      In s (App.filteredSymptoms L q)) /\
     (occursIgnoringCase (trim q) (display s)
      \/ occursIgnoringCase (trim q) (en s)
      \/ occursIgnoringCase (trim q) (te s) ->
      In s (SymptomSelector.filtered L q)) /\
     (Plain (display s) ->
      In s (App.filteredSymptoms L q) ->
      occursIgnoringCase (trim q) (display s)) /\
     (Plain (display s) -> Plain (en s) -> Plain (te s) ->
      In s (SymptomSelector.filtered L q) ->
      occursIgnoringCase (trim q) (display s)
      \/ occursIgnoringCase (trim q) (en s)
      \/ occursIgnoringCase (trim q) (te s))).
Proof.
  split; [|split; [|split; [|split; [|split]]]].
  - eexists; split; [|apply filteredSymptoms_filter].
    intros s; apply includes_containsCI.
  - eexists; split; [|apply filtered_filter].
    intros s; cbv beta.
    rewrite !orb_true_iff, !includes_containsCI; tauto.
  - rewrite filteredSymptoms_filter; apply filter_Subsequence.
  - rewrite filtered_filter; apply filter_Subsequence.
  - intros W; unfold App.filteredSymptoms, SymptomSelector.filtered.
    rewrite (falsy_trim W); split; reflexivity.
  - intros P s I; split; [|split; [|split]].
    + intros O; apply In_filteredSymptoms; split; [exact I|].
      apply occurs_containsCI; assumption.
    + intros O; apply In_filtered; split; [exact I|].
      destruct O as [O | [O | O]]; [left | right; left | right; right];
        apply occurs_containsCI; assumption.
    + intros Pd H; apply In_filteredSymptoms in H; destruct H as [_ H].
      apply containsCI_occurs; assumption.
    + intros Pd Pe Pt H; apply In_filtered in H.
      destruct H as [_ [H | [H | H]]]; [left | right; left | right; right];
        apply containsCI_occurs; assumption.
Qed.

Lemma search_filters_on_trimmed_query_witness :
  (whitespaceOnly (js "  ") /\
   App.filteredSymptoms (B := plainLowerCase) Sample.catalog (js "  ")
   = Sample.catalog /\
   SymptomSelector.filtered (B := plainLowerCase) Sample.catalog (js "  ")
   = Sample.catalog) /\
  In Sample.cough
     (App.filteredSymptoms (B := plainLowerCase) Sample.catalog
                           (js " COUGH ")).
Proof.
  split; [split|].
  - repeat constructor.
  - apply (@search_filters_on_trimmed_query plainLowerCase
             Sample.catalog (js "  ")).
    repeat constructor.
  - destruct (@search_filters_on_trimmed_query plainLowerCase
                Sample.catalog (js " COUGH "))
      as (_ & _ & _ & _ & _ & H).
    assert (I : In Sample.cough Sample.catalog)
      by (right; left; reflexivity).
    destruct (H eq_refl Sample.cough I) as [HA _]; apply HA.
    exists [], (js "Cough"), (js " / " ++ Sample.te_cough).
    split; [reflexivity|split; reflexivity].
Defined.

(** C3, as stated, fails on both searches.  [App] does not look at the
    identifier: "nasal_d" occurs in the identifier [nasal_discharge] but not
    in the display label.  [SymptomSelector] trims the query first: " fever"
    with its leading blank occurs in no label of [fever], which is kept.
    Catalog and queries are plain text, on which every lower-casing with
    the two facts agrees ([filteredSymptoms_plain], [filtered_plain],
    [containsCI_plain]). *)
Lemma search_by_raw_query_fails :
  (matchesQuery (B := plainLowerCase) Sample.nasal (js "nasal_d") /\
   App.filteredSymptoms (B := plainLowerCase) [Sample.nasal] (js "nasal_d")
   = []) /\
  (~ matchesQuery (B := plainLowerCase) Sample.fever (js " fever") /\
   SymptomSelector.filtered (B := plainLowerCase) [Sample.fever] (js " fever")
   = [Sample.fever]) /\
  ~ FiltersByQuery (B := plainLowerCase)
      (App.filteredSymptoms (B := plainLowerCase)) /\
  ~ FiltersByQuery (B := plainLowerCase)
      (SymptomSelector.filtered (B := plainLowerCase)).
Proof.
  assert (A1 : matchesQuery (B := plainLowerCase) Sample.nasal
                            (js "nasal_d")).
  { left; apply includes_containsCI; vm_compute; reflexivity. }
  assert (A2 : App.filteredSymptoms (B := plainLowerCase) [Sample.nasal]
                                    (js "nasal_d") = [])
    by (vm_compute; reflexivity).
  assert (B1 : ~ matchesQuery (B := plainLowerCase) Sample.fever
                              (js " fever")).
  { intros [H | [H | H]]; apply includes_containsCI in H;
      vm_compute in H; discriminate. }
  assert (B2 : SymptomSelector.filtered (B := plainLowerCase) [Sample.fever]
                                        (js " fever")
               = [Sample.fever]) by (vm_compute; reflexivity).
  assert (W1 : ~ whitespaceOnly (js "nasal_d")).
  { intros H; inversion H as [|c l Hc _]; vm_compute in Hc; discriminate. }
  assert (W2 : ~ whitespaceOnly (js " fever")).
  { intros H; inversion H as [|c l _ Hl]; inversion Hl as [|c' l' Hc _].
    vm_compute in Hc; discriminate. }
  repeat split; try assumption.
  - intros F.
    destruct (F [Sample.nasal] (js "nasal_d")) as [_ F2].
    destruct (F2 W1) as [_ F3].
    rewrite A2 in F3.
    apply (proj2 (F3 Sample.nasal)); split; [left; reflexivity | exact A1].
  - intros F.
    destruct (F [Sample.fever] (js " fever")) as [_ F2].
    destruct (F2 W2) as [_ F3].
    rewrite B2 in F3.
    apply B1, (proj1 (F3 Sample.fever)); left; reflexivity.
Qed.

(** ** Risk badge *)

Section Risk.

Context {B : StringBuiltins}.

Lemma risk_words_lower :
  toLowerCase (js "high risk") = js "high risk" /\
  toLowerCase (js "medium risk") = js "medium risk" /\
  toLowerCase (js "high") = js "high" /\
  toLowerCase (js "medium") = js "medium" /\
  toLowerCase (js "low") = js "low".
Proof.
  repeat split; apply toLowerCase_literal; reflexivity.
Qed.

Lemma risk_by_lower_case (label : jsstring) (text : option jsstring) :
  let t := match text with Some s => s | None => empty end in
  (App.RiskBadge label = "badge badge-high"%string <->
   containsCI label (js "high risk")) /\
  (App.RiskBadge label = "badge badge-med"%string <->
   ~ containsCI label (js "high risk") /\
   containsCI label (js "medium risk")) /\
  (App.RiskBadge label = "badge badge-low"%string <->
   ~ containsCI label (js "high risk") /\
   ~ containsCI label (js "medium risk")) /\
  App.RiskBadge empty = "badge badge-low"%string /\
  (PredictionResult.riskColor text = "error"%string <->
   containsCI t (js "high")) /\
  (PredictionResult.riskColor text = "warning"%string <->
   ~ containsCI t (js "high") /\ containsCI t (js "medium")) /\
  (PredictionResult.riskColor text = "success"%string <->
   ~ containsCI t (js "high") /\ ~ containsCI t (js "medium") /\
   containsCI t (js "low")) /\
  (PredictionResult.riskColor text = "default"%string <->
   ~ containsCI t (js "high") /\ ~ containsCI t (js "medium") /\
   ~ containsCI t (js "low")) /\
  PredictionResult.riskColor None = "default"%string /\
  PredictionResult.riskColor (Some empty) = "default"%string.
Proof.
  intros t.
  destruct risk_words_lower as (W1 & W2 & W3 & W4 & W5).
  assert (E1 : App.RiskBadge empty = "badge badge-low"%string).
  { unfold App.RiskBadge; rewrite toLowerCase_nil; reflexivity. }
  assert (E2 : PredictionResult.riskColor None = "default"%string).
  { unfold PredictionResult.riskColor; rewrite toLowerCase_nil;
      reflexivity. }
  assert (E3 : PredictionResult.riskColor (Some empty) = "default"%string).
  { unfold PredictionResult.riskColor; rewrite toLowerCase_nil;
      reflexivity. }
  rewrite E1, E2, E3; clear E1 E2 E3.
  unfold containsCI; rewrite W1, W2, W3, W4, W5.
  rewrite <- !includes_Substring.
  unfold App.RiskBadge, PredictionResult.riskColor.
  fold t.
  destruct (includes (toLowerCase label) (js "high risk"));
    destruct (includes (toLowerCase label) (js "medium risk"));
    destruct (includes (toLowerCase t) (js "high"));
    destruct (includes (toLowerCase t) (js "medium"));
    destruct (includes (toLowerCase t) (js "low"));
    string_cases.
Qed.

Lemma containsCI_iff_occurs (label w : jsstring) :
  Plain w -> Plain label ->
  (containsCI label w <-> occursIgnoringCase w label).
Proof.
  intros Pw Pl; split;
    [apply containsCI_occurs | apply occurs_containsCI]; assumption.
Qed.

End Risk.

(** C10.  [RiskBadge] tests the lower-cased label for "high risk", then for
    "medium risk", and styles everything else, the empty label included, as
    low; [riskColor] tests for "high", "medium", "low" in this order and
    answers "default" when none occurs or the text is missing.  The tests
    ignore the case of letters: a label in which "high risk" occurs in
    whatever case is styled as high (and coloured "error"), and for a label
    of plain text the three classes are decided by these occurrences. *)
Theorem risk_label_classification
        {B : StringBuiltins} (label : jsstring) (text : option jsstring) :
  let t := match text with Some s => s | None => empty end in
  (App.RiskBadge label = "badge badge-high"%string <->
   containsCI label (js "high risk")) /\
  (App.RiskBadge label = "badge badge-med"%string <->
   ~ containsCI label (js "high risk") /\
   containsCI label (js "medium risk")) /\
  (App.RiskBadge label = "badge badge-low"%string <->
   ~ containsCI label (js "high risk") /\
   ~ containsCI label (js "medium risk")) /\
  App.RiskBadge empty = "badge badge-low"%string /\
  (PredictionResult.riskColor text = "error"%string <->
   containsCI t (js "high")) /\
  (PredictionResult.riskColor text = "warning"%string <->
   ~ containsCI t (js "high") /\ containsCI t (js "medium")) /\
  (PredictionResult.riskColor text = "success"%string <->
   ~ containsCI t (js "high") /\ ~ containsCI t (js "medium") /\
   containsCI t (js "low")) /\
  (PredictionResult.riskColor text = "default"%string <->
   ~ containsCI t (js "high") /\ ~ containsCI t (js "medium") /\
   ~ containsCI t (js "low")) /\
  PredictionResult.riskColor None = "default"%string /\
  PredictionResult.riskColor (Some empty) = "default"%string /\
  (occursIgnoringCase (js "high risk") label ->
   App.RiskBadge label = "badge badge-high"%string) /\
  (occursIgnoringCase (js "high") t ->
   PredictionResult.riskColor text = "error"%string) /\
  (Plain label ->
   (App.RiskBadge label = "badge badge-high"%string <->
    occursIgnoringCase (js "high risk") label) /\
   (App.RiskBadge label = "badge badge-med"%string <->
    ~ occursIgnoringCase (js "high risk") label /\
    occursIgnoringCase (js "medium risk") label) /\
   (App.RiskBadge label = "badge badge-low"%string <->
    ~ occursIgnoringCase (js "high risk") label /\
    ~ occursIgnoringCase (js "medium risk") label)) /\
  (Plain t ->
   (PredictionResult.riskColor text = "error"%string <->
    occursIgnoringCase (js "high") t) /\
   (PredictionResult.riskColor text = "warning"%string <->
    ~ occursIgnoringCase (js "high") t /\
    occursIgnoringCase (js "medium") t) /\
   (PredictionResult.riskColor text = "success"%string <->
    ~ occursIgnoringCase (js "high") t /\
    ~ occursIgnoringCase (js "medium") t /\
    occursIgnoringCase (js "low") t) /\
   (PredictionResult.riskColor text = "default"%string <->
    ~ occursIgnoringCase (js "high") t /\
    ~ occursIgnoringCase (js "medium") t /\
    ~ occursIgnoringCase (js "low") t)).
Proof.
  intros t.
  destruct (risk_by_lower_case label text)
    as (A1 & A2 & A3 & A4 & C1 & C2 & C3 & C4 & C5 & C6).
  fold t in C1, C2, C3, C4.
  repeat (split; [assumption|]).
  split; [|split; [|split]].
  - intros O; apply A1, occurs_containsCI; [reflexivity | exact O].
  - intros O; apply C1, occurs_containsCI; [reflexivity | exact O].
  - intros P.
    rewrite <- (@containsCI_iff_occurs B label (js "high risk") eq_refl P).
    rewrite <- (@containsCI_iff_occurs B label (js "medium risk") eq_refl P).
    repeat split; tauto.
  - intros P.
    rewrite <- (@containsCI_iff_occurs B t (js "high") eq_refl P).
    rewrite <- (@containsCI_iff_occurs B t (js "medium") eq_refl P).
    rewrite <- (@containsCI_iff_occurs B t (js "low") eq_refl P).
    repeat split; tauto.
Qed.

Lemma risk_label_classification_witness :
  App.RiskBadge (B := plainLowerCase)
     (js "HIGH RISK / " ++ [3077; 3111; 3135; 3093]%N)
  = "badge badge-high"%string /\
  PredictionResult.riskColor (B := plainLowerCase) (Some (js "Medium Risk"))
  = "warning"%string.
Proof.
  split.
  - destruct (@risk_label_classification plainLowerCase
                (js "HIGH RISK / " ++ [3077; 3111; 3135; 3093]%N) None)
      as (_ & _ & _ & _ & _ & _ & _ & _ & _ & _ & H & _).
    apply H.
    exists [], (js "HIGH RISK"), (js " / " ++ [3077; 3111; 3135; 3093]%N).
    split; [reflexivity|split; reflexivity].
  - destruct (@risk_label_classification plainLowerCase
                empty (Some (js "Medium Risk")))
      as (_ & _ & _ & _ & _ & _ & _ & _ & _ & _ & _ & _ & _ & H).
    destruct (H eq_refl) as (_ & H2 & _); apply H2; split.
    + intros (a & v & b & E & _ & M).
      assert (I : includes (map lowerUnit (js "Medium Risk")) (js "high")
                  = true).
      { apply includes_Substring; exists (map lowerUnit a), (map lowerUnit b).
        rewrite E, !map_app, M; reflexivity. }
      vm_compute in I; discriminate.
    + exists [], (js "Medium"), (js " Risk").
      split; [reflexivity|split; reflexivity].
Defined.

(** ** Selection *)

Section Selection.

Variables (max : nat) (disabled : bool).

Lemma toggle_length (sel : list jsstring) (en : jsstring) :
  length sel <= max ->
  length (SymptomSelector.toggle max disabled sel en) <= max.
Proof.
  intros H; unfold SymptomSelector.toggle.
  destruct disabled; [assumption|].
  destruct (arrayIncludes sel en).
  - pose proof (length_without sel en); lia.
  - destruct (max <=? length sel) eqn:E; [assumption|].
    apply Nat.leb_gt in E; rewrite length_app; simpl; lia.
Qed.

Lemma toggle_NoDup (sel : list jsstring) (en : jsstring) :
  NoDup sel -> NoDup (SymptomSelector.toggle max disabled sel en).
Proof.
  intros H; unfold SymptomSelector.toggle.
  destruct disabled; [assumption|].
  destruct (arrayIncludes sel en) eqn:E.
  - apply NoDup_filter; assumption.
  - destruct (max <=? length sel); [assumption|].
    apply arrayIncludes_not_In in E.
    apply NoDup_app; [assumption | repeat constructor; simpl; tauto |].
    intros x Hx [<- | []]; contradiction.
Qed.

Lemma toggles_invariant (ens sel : list jsstring) :
  length sel <= max /\ NoDup sel ->
  length (fold_left (SymptomSelector.toggle max disabled) ens sel) <= max /\
  NoDup (fold_left (SymptomSelector.toggle max disabled) ens sel).
Proof.
  revert sel; induction ens as [|en ens IH]; intros sel [H1 H2]; simpl.
  - split; assumption.
  - apply IH; split; [apply toggle_length | apply toggle_NoDup]; assumption.
Qed.

End Selection.

(** The selection [App.toggle] leaves is the one [SymptomSelector.toggle]
    computes with the default bound. *)
Lemma App_toggle_selected (en : jsstring) (st : App.State) :
  App.selected (App.stateAfter (App.toggle en) st) =
  SymptomSelector.toggle 8 false (App.selected st) en.
Proof.
  unfold App.stateAfter, App.toggle, App.bind, App.read,
    SymptomSelector.toggle.
  destruct (arrayIncludes (App.selected st) en); [reflexivity|].
  destruct (8 <=? length (App.selected st)); reflexivity.
Qed.

Lemma App_toggles_selected (ens : list jsstring) (st : App.State) :
  App.selected
    (fold_left (fun st en => App.stateAfter (App.toggle en) st) ens st) =
  fold_left (SymptomSelector.toggle 8 false) ens (App.selected st).
Proof.
  revert st; induction ens as [|en ens IH]; intros st; simpl;
    [reflexivity|].
  rewrite IH, App_toggle_selected; reflexivity.
Qed.

(** C4.  After any sequence of [toggle] calls from the empty selection, in
    [App] as in [SymptomSelector] with its default bound, the selection has
    at most 8 entries and no entry occurs twice. *)
Theorem selection_bounded_and_distinct (ens : list jsstring) :
  let st :=
    fold_left (fun st en => App.stateAfter (App.toggle en) st) ens
              App.initialState in
  let sel :=
    fold_left (SymptomSelector.toggle SymptomSelector.default_max false)
              ens [] in
  (0 <= length (App.selected st) <= 8 /\ NoDup (App.selected st)) /\
  (0 <= length sel <= 8 /\ NoDup sel).
Proof.
  cbv zeta; rewrite App_toggles_selected.
  change (App.selected App.initialState) with (@nil jsstring).
  unfold SymptomSelector.default_max.
  destruct (@toggles_invariant 8 false ens []) as [H1 H2].
  { split; [simpl; lia | constructor]. }
  repeat split; try assumption; lia.
Qed.

(** C5.  At 8 selected entries, [App.toggle] of an identifier that is not
    selected changes nothing but the alert, which gets the maximum notice;
    no request is sent.  [SymptomSelector.toggle] leaves the selection as it
    is too, and the checkbox of the identifier is the blocked one, the one
    that carries the "(max 8)" caption. *)
Theorem toggle_rejected_at_maximum (st : App.State) (en : jsstring) :
  length (App.selected st) = 8 ->
  ~ In en (App.selected st) ->
  App.toggle en st =
    (tt,
     App.mkState (App.animal st) (App.allSymptoms st) (App.selected st)
                 (App.query st) (App.result st) App.msgMaximum
                 (App.loading st),
     []) /\
  forall disabled,
    SymptomSelector.toggle 8 disabled (App.selected st) en = App.selected st /\
    SymptomSelector.blocked 8 (App.selected st) en = true.
Proof.
  intros L N; apply arrayIncludes_not_In in N.
  unfold App.toggle, App.bind, App.read, SymptomSelector.toggle,
    SymptomSelector.blocked.
  rewrite N, L; simpl; split; [reflexivity|].
  intros []; split; reflexivity.
Qed.

Lemma toggle_rejected_at_maximum_witness :
  let sel := map (fun c => [c]) [97; 98; 99; 100; 101; 102; 103; 104]%N in
  let st := App.mkState (js "Cow") [] sel empty None empty false in
  App.selected (App.stateAfter (App.toggle (js "fever")) st) = sel /\
  App.error (App.stateAfter (App.toggle (js "fever")) st) = App.msgMaximum.
Proof.
  intros sel st.
  destruct (@toggle_rejected_at_maximum st (js "fever")) as [E _].
  - reflexivity.
  - vm_compute; intuition discriminate.
  - unfold App.stateAfter; rewrite E; split; reflexivity.
Defined.

(** ** The page between events *)

Section Page.

Lemma answer_count (kind p : Api.Request -> bool) (l : list Api.Request)
      (r : Api.Request) (rest : list Api.Request) :
  App.answer kind l = Some (r, rest) ->
  kind r = true /\
  length (filter p l) = length (filter p rest) + (if p r then 1 else 0).
Proof.
  revert r rest; induction l as [|x l IH]; intros r rest; simpl;
    [discriminate|].
  destruct (kind x) eqn:K.
  - intros H; injection H as <- <-; split; [assumption|].
    destruct (p x); simpl; lia.
  - destruct (App.answer kind l) as [[r' rest']|]; [|discriminate].
    intros H; injection H as <- <-.
    destruct (IH r' rest' eq_refl) as [K' C]; split; [assumption|].
    simpl; destruct (p x); simpl; lia.
Qed.

Lemma outstanding_dispatch (h : App.Handler unit) (w : App.World) :
  App.outstanding (App.dispatch h w) =
  App.outstanding w
  + length (filter App.isPredict (App.requestsOf h (App.ui w))).
Proof.
  unfold App.outstanding, App.dispatch; simpl.
  rewrite filter_app, length_app; reflexivity.
Qed.

Lemma toggle_frame (en : jsstring) (st : App.State) :
  App.loading (App.stateAfter (App.toggle en) st) = App.loading st /\
  App.result (App.stateAfter (App.toggle en) st) = App.result st /\
  App.requestsOf (App.toggle en) st = [].
Proof.
  unfold App.stateAfter, App.requestsOf, App.toggle, App.bind, App.read.
  destruct (arrayIncludes (App.selected st) en);
    [repeat split; reflexivity|].
  destruct (8 <=? length (App.selected st)); repeat split; reflexivity.
Qed.

Lemma Consistent_mounted : Consistent App.mounted.
Proof.
  unfold Consistent; simpl; repeat split;
    solve [lia | constructor | discriminate | reflexivity].
Qed.

Lemma Consistent_step (w w' : App.World) (e : App.Event) :
  Consistent w -> App.step w e = Some w' -> Consistent w'.
Proof.
  intros (L & D & O & R) S; unfold Consistent.
  destruct e as [a|q|x|x| | |t|t]; cbn [App.step] in S.
  - injection S as <-; rewrite outstanding_dispatch; simpl.
    rewrite Nat.add_0_r; auto.
  - injection S as <-; rewrite outstanding_dispatch; simpl.
    rewrite Nat.add_0_r; auto.
  - injection S as <-; rewrite outstanding_dispatch.
    destruct (toggle_frame x (App.ui w)) as (F1 & F2 & F3).
    cbn [App.dispatch App.ui]; rewrite App_toggle_selected, F1, F2, F3.
    cbn [filter length]; rewrite Nat.add_0_r.
    repeat split; try assumption;
      [apply toggle_length | apply toggle_NoDup]; assumption.
  - injection S as <-; rewrite outstanding_dispatch; simpl.
    rewrite Nat.add_0_r; repeat split; try assumption.
    + pose proof (length_without (App.selected (App.ui w)) x); lia.
    + apply NoDup_filter; assumption.
  - injection S as <-; rewrite outstanding_dispatch; simpl.
    rewrite Nat.add_0_r; repeat split; try assumption;
      [lia | constructor].
  - destruct (App.loading (App.ui w)) eqn:Ld.
    + injection S as <-; rewrite Ld; auto.
    + injection S as <-; rewrite outstanding_dispatch.
      unfold App.dispatch, App.stateAfter, App.requestsOf, App.onPredict,
        App.bind, App.read; simpl.
      destruct (length (App.selected (App.ui w)) <? 3); simpl;
        rewrite ?Ld, O; repeat split; auto.
  - destruct (App.answer App.isCatalog (App.inFlight w))
      as [[r rest]|] eqn:A; [|discriminate].
    injection S as <-.
    destruct (answer_count App.isCatalog App.isPredict _ A) as [K C].
    unfold App.isCatalog in K; apply negb_true_iff in K; rewrite K in C.
    rewrite outstanding_dispatch.
    unfold App.outstanding in *; cbn [App.inFlight App.ui App.dispatch].
    destruct (Api.axiosData t); simpl;
      rewrite Nat.add_0_r, <- O; repeat split; auto; lia.
  - destruct (App.answer App.isPredict (App.inFlight w))
      as [[[path|path payload] rest]|] eqn:A; try discriminate.
    injection S as <-.
    destruct (answer_count App.isPredict App.isPredict _ A) as [_ C].
    rewrite outstanding_dispatch.
    unfold App.outstanding in *; cbn [App.inFlight App.ui App.dispatch].
    simpl in C; rewrite C in O.
    destruct (App.loading (App.ui w)); [|lia].
    destruct (Api.axiosData t); simpl;
      repeat split; auto; try lia; discriminate.
Qed.

Lemma Consistent_run (es : list App.Event) (w w' : App.World) :
  Consistent w -> App.run w es = Some w' -> Consistent w'.
Proof.
  revert w; induction es as [|e es IH]; intros w C; simpl.
  - intros H; injection H as <-; assumption.
  - destruct (App.step w e) as [w1|] eqn:S; [|discriminate].
    apply IH, (Consistent_step e C S).
Qed.

End Page.

(** ** Submission *)

(** C1.  On every page reachable from the mounted one, at most one
    prediction request is unanswered, one is unanswered exactly while
    [loading] is set, and a click on Predict while [loading] is set leaves
    the page, the list of requests sent included, as it is. *)
Theorem single_flight (es : list App.Event) (w : App.World) :
  App.run App.mounted es = Some w ->
  App.outstanding w <= 1 /\
  (App.loading (App.ui w) = true <-> App.outstanding w = 1) /\
  (App.loading (App.ui w) = true -> App.step w App.ClickPredict = Some w).
Proof.
  intros R.
  destruct (Consistent_run es Consistent_mounted R) as (_ & _ & O & _).
  simpl; destruct (App.loading (App.ui w)); rewrite O;
    repeat split; auto; discriminate.
Qed.

Lemma single_flight_witness :
  let w := Sample.pageAfter Sample.submission in
  App.loading (App.ui w) = true /\
  App.outstanding w = 1 /\
  App.step w App.ClickPredict = Some w.
Proof.
  intros w.
  assert (R : App.run App.mounted Sample.submission = Some w)
    by (vm_compute; reflexivity).
  assert (L : App.loading (App.ui w) = true) by (vm_compute; reflexivity).
  destruct (single_flight Sample.submission R) as (_ & H1 & H2).
  split; [exact L | split; [apply H1, L | apply H2, L]].
Defined.

(** C2, as the code has it.  With fewer than 3 symptoms selected,
    [onPredict] sends nothing and leaves the selection, the animal, the
    query, the catalog and [loading] as they are; the alert is replaced by
    the minimum notice and the result is cleared. *)
Theorem submit_below_minimum (st : App.State) :
  length (App.selected st) < 3 ->
  App.onPredict st =
    (tt,
     App.mkState (App.animal st) (App.allSymptoms st) (App.selected st)
                 (App.query st) None App.msgMinimum (App.loading st),
     []).
Proof.
  intros H; apply Nat.ltb_lt in H.
  unfold App.onPredict, App.bind, App.read; simpl; rewrite H; reflexivity.
Qed.

Lemma submit_below_minimum_witness :
  let w := Sample.pageAfter Sample.resultThenTwo in
  App.requestsOf App.onPredict (App.ui w) = [] /\
  App.error (App.stateAfter App.onPredict (App.ui w)) = App.msgMinimum.
Proof.
  intros w; unfold App.requestsOf, App.stateAfter.
  rewrite (@submit_below_minimum (App.ui w)).
  - split; reflexivity.
  - vm_compute; lia.
Defined.

(** C2, as stated, fails: a page that shows a result and has two symptoms
    selected loses the result when Predict is clicked. *)
Lemma short_submit_clears_result :
  let w := Sample.pageAfter Sample.resultThenTwo in
  App.run App.mounted Sample.resultThenTwo = Some w /\
  length (App.selected (App.ui w)) < 3 /\
  App.result (App.ui w) = Some Sample.footRot /\
  App.loading (App.ui w) = false /\
  exists w',
    App.step w App.ClickPredict = Some w' /\
    App.error (App.ui w') = App.msgMinimum /\
    App.sent w' = App.sent w /\
    App.result (App.ui w') = None /\
    App.result (App.ui w') <> App.result (App.ui w).
Proof.
  intros w.
  split; [vm_compute; reflexivity|].
  split; [vm_compute; lia|].
  split; [vm_compute; reflexivity|].
  split; [vm_compute; reflexivity|].
  eexists; split; [vm_compute; reflexivity|].
  repeat split; try (vm_compute; reflexivity).
  vm_compute; discriminate.
Qed.

Lemma messages_distinct :
  App.msgPredictFailed <> App.msgMinimum /\
  App.msgPredictFailed <> App.msgMaximum.
Proof. split; intros H; vm_compute in H; discriminate. Qed.

Lemma settle_rejected (w w' : App.World)
      (t : Api.Transport Api.PredictionResult) :
  transportFailure t ->
  App.step w (App.PredictSettled t) = Some w' ->
  App.error (App.ui w') = App.msgPredictFailed /\
  App.result (App.ui w') = App.result (App.ui w) /\
  App.loading (App.ui w') = false /\
  App.sent w' = App.sent w.
Proof.
  intros F S; cbn [App.step] in S.
  destruct (App.answer App.isPredict (App.inFlight w))
    as [[[path|path payload] rest]|]; try discriminate.
  injection S as <-.
  assert (E : Api.axiosData t = Api.Rejected).
  { destruct t as [| |status data]; try reflexivity.
    simpl in F |- *; rewrite F; reflexivity. }
  unfold App.dispatch, App.stateAfter, App.requestsOf; simpl.
  rewrite E; simpl; rewrite app_nil_r; repeat split; reflexivity.
Qed.

Lemma settle_fulfilled (w w' : App.World) (status : N)
      (data : Api.PredictionResult) :
  Api.validateStatus status = true ->
  App.step w (App.PredictSettled (Api.Responded status data)) = Some w' ->
  App.result (App.ui w') = Some data /\
  App.error (App.ui w') = App.error (App.ui w) /\
  App.loading (App.ui w') = false /\
  App.sent w' = App.sent w.
Proof.
  intros V S; cbn [App.step] in S.
  destruct (App.answer App.isPredict (App.inFlight w))
    as [[[path|path payload] rest]|]; try discriminate.
  injection S as <-.
  unfold App.dispatch, App.stateAfter, App.requestsOf; simpl.
  rewrite V; simpl; rewrite app_nil_r; repeat split; reflexivity.
Qed.

(** C6, as the code has it.  When the transport reports a failure of the
    prediction call (network error, timeout, status outside 2xx), the page
    ends with the generic failure message, which differs from both
    validation notices, with no result (it was cleared when the submission
    started), with [loading] off, and without a further request.  A 2xx
    response is stored as the result whatever its payload. *)
Theorem transport_failure_reported
        (es : list App.Event) (w w' : App.World)
        (t : Api.Transport Api.PredictionResult) :
  App.run App.mounted es = Some w ->
  App.step w (App.PredictSettled t) = Some w' ->
  (transportFailure t ->
   App.error (App.ui w') = App.msgPredictFailed /\
   App.result (App.ui w') = None /\
   App.loading (App.ui w') = false /\
   App.sent w' = App.sent w) /\
  App.msgPredictFailed <> App.msgMinimum /\
  App.msgPredictFailed <> App.msgMaximum /\
  (forall status data,
      t = Api.Responded status data ->
      Api.validateStatus status = true ->
      App.result (App.ui w') = Some data /\
      App.error (App.ui w') = App.error (App.ui w) /\
      App.loading (App.ui w') = false).
Proof.
  intros R S.
  destruct (Consistent_run es Consistent_mounted R) as (_ & _ & O & N).
  assert (L : App.loading (App.ui w) = true).
  { cbn [App.step] in S.
    destruct (App.answer App.isPredict (App.inFlight w))
      as [[r rest]|] eqn:A; [|discriminate].
    destruct (answer_count App.isPredict App.isPredict _ A) as [K C].
    unfold App.outstanding in O; rewrite C, K in O.
    destruct (App.loading (App.ui w)); [reflexivity | lia]. }
  split; [|split; [apply messages_distinct|split; [apply messages_distinct|]]].
  - intros F; destruct (@settle_rejected w w' t F S) as (E1 & E2 & E3 & E4).
    rewrite E2, (N L); auto.
  - intros status data -> V.
    destruct (@settle_fulfilled w w' status data V S)
      as (E1 & E2 & E3 & _); auto.
Qed.

Lemma transport_failure_reported_witness :
  let w := Sample.pageAfter Sample.submission in
  let w' := Sample.pageAfter
              (Sample.submission
               ++ [App.PredictSettled (Api.Responded 500 Sample.emptyObject)])
  in
  App.error (App.ui w') = App.msgPredictFailed /\
  App.result (App.ui w') = None /\
  App.loading (App.ui w') = false /\
  App.sent w' = App.sent w.
Proof.
  intros w w'.
  apply (@transport_failure_reported Sample.submission w w'
           (Api.Responded 500 Sample.emptyObject)).
  - vm_compute; reflexivity.
  - vm_compute; reflexivity.
  - vm_compute; reflexivity.
Defined.

(** C6, as stated, fails on a malformed payload: the body [{}] under
    status 200, which the output card cannot render, becomes the result,
    and the alert stays empty. *)
Lemma unrenderable_payload_accepted :
  let t := Api.Responded 200 Sample.emptyObject in
  let w := Sample.pageAfter Sample.submission in
  predictionFailure t /\
  App.run App.mounted Sample.submission = Some w /\
  exists w',
    App.step w (App.PredictSettled t) = Some w' /\
    App.error (App.ui w') = empty /\
    App.error (App.ui w') <> App.msgPredictFailed /\
    App.result (App.ui w') = Some Sample.emptyObject.
Proof.
  intros t w.
  split; [right; reflexivity|].
  split; [vm_compute; reflexivity|].
  eexists; split; [vm_compute; reflexivity|].
  repeat split; try (vm_compute; reflexivity).
  vm_compute; discriminate.
Qed.

(** C7.  With at least 3 symptoms selected, [onPredict] sends exactly one
    request, [POST /predict] with the animal, the selection and [top_k] 3;
    its continuation sends nothing, whatever the outcome.  On the page, a
    click on the enabled button adds this one request to those sent, and
    the settlement adds none. *)
Theorem valid_submit_sends_one_request (w : App.World) :
  3 <= length (App.selected (App.ui w)) ->
  let req :=
    Api.POST (js "/predict")
             (Api.mkPayload (App.animal (App.ui w))
                            (App.selected (App.ui w)) 3) in
  App.requestsOf App.onPredict (App.ui w) = [req] /\
  (forall p st, App.requestsOf (App.onPredict_settled p) st = []) /\
  (App.loading (App.ui w) = false ->
   exists w1,
     App.step w App.ClickPredict = Some w1 /\
     App.sent w1 = App.sent w ++ [req] /\
     forall t w2,
       App.step w1 (App.PredictSettled t) = Some w2 ->
       App.sent w2 = App.sent w1).
Proof.
  intros H req.
  assert (E : App.requestsOf App.onPredict (App.ui w) = [req]).
  { apply Nat.ltb_ge in H.
    unfold App.requestsOf, App.onPredict, App.bind, App.read; simpl.
    rewrite H; reflexivity. }
  assert (Z : forall p st, App.requestsOf (App.onPredict_settled p) st = [])
    by (intros [data|] st; reflexivity).
  split; [exact E|split].
  - exact Z.
  - intros L; eexists; cbn [App.step]; rewrite L.
    split; [reflexivity|split].
    + unfold App.dispatch; cbn [App.sent]; rewrite E; reflexivity.
    + intros t w2 S.
      cbn [App.step] in S.
      destruct (App.answer App.isPredict _)
        as [[[path|path payload] rest]|]; try discriminate.
      injection S as <-.
      unfold App.dispatch; cbn [App.sent App.ui].
      rewrite Z; apply app_nil_r.
Qed.

Lemma valid_submit_sends_one_request_witness :
  let w := Sample.pageAfter Sample.pickThree in
  App.requestsOf App.onPredict (App.ui w) =
  [Api.POST (js "/predict")
            (Api.mkPayload (js "Cow") [js "fever"; js "cough"; js "limp"] 3)].
Proof.
  intros w.
  apply (@valid_submit_sends_one_request w).
  vm_compute; lia.
Defined.

(** ** Catalog load *)

(** C8.  A 2xx answer to [GET /symptoms] whose [symptoms] member is
    missing, null or the empty list, or which has no body at all, makes
    [getSymptoms] resolve to the empty list; the load effect then stores the
    empty catalog and touches nothing else, the alert in particular. *)
Theorem empty_catalog_is_valid
        (status : N) (body : Api.SymptomsBody) (st : App.State) :
  Api.validateStatus status = true ->
  Api.body_symptoms body = None \/ Api.body_symptoms body = Some [] ->
  Api.resume Api.getSymptoms (Api.Responded status (Some body))
  = Api.Fulfilled [] /\
  Api.resume Api.getSymptoms (Api.Responded status None) = Api.Fulfilled [] /\
  App.loadCatalog_settled
    (Api.resume Api.getSymptoms (Api.Responded status (Some body))) st =
  (tt,
   App.mkState (App.animal st) [] (App.selected st) (App.query st)
               (App.result st) (App.error st) (App.loading st),
   []).
Proof.
  intros V B; simpl; rewrite V.
  destruct B as [-> | ->]; repeat split; reflexivity.
Qed.

Lemma empty_catalog_is_valid_witness :
  Api.resume Api.getSymptoms
             (Api.Responded 200 (Some (Api.mkSymptomsBody None)))
  = Api.Fulfilled [] /\
  App.allSymptoms
    (Sample.pageAfter
       [App.CatalogSettled
          (Api.Responded 200 (Some (Api.mkSymptomsBody None)))]).(App.ui)
  = [] /\
  App.error
    (Sample.pageAfter
       [App.CatalogSettled
          (Api.Responded 200 (Some (Api.mkSymptomsBody None)))]).(App.ui)
  = empty.
Proof.
  destruct (@empty_catalog_is_valid 200 (Api.mkSymptomsBody None)
              App.initialState) as (E & _ & _).
  - reflexivity.
  - left; reflexivity.
  - split; [exact E | split; vm_compute; reflexivity].
Defined.

(** ** Toggling twice *)

Lemma toggle_twice_members (sel : list jsstring) (x : jsstring) :
  In x sel ->
  length sel <= 8 ->
  forall y,
    In y (SymptomSelector.toggle 8 false
            (SymptomSelector.toggle 8 false sel x) x) <-> In y sel.
Proof.
  intros I L y.
  assert (E1 : SymptomSelector.toggle 8 false sel x = without sel x).
  { unfold SymptomSelector.toggle.
    rewrite (proj2 (arrayIncludes_In sel x) I); reflexivity. }
  rewrite E1.
  assert (N : arrayIncludes (without sel x) x = false).
  { apply arrayIncludes_not_In; rewrite In_without; tauto. }
  pose proof (length_without_In sel x I) as Lt.
  assert (B : (8 <=? length (without sel x)) = false)
    by (apply Nat.leb_gt; lia).
  unfold SymptomSelector.toggle at 1; rewrite N, B.
  rewrite in_app_iff, In_without; simpl.
  destruct (str_eqb y x) eqn:E.
  - apply str_eqb_eq in E; subst y; tauto.
  - assert (y <> x) by (intros ->; rewrite str_eqb_refl in E; discriminate).
    intuition congruence.
Qed.

(** C9.  On every page reachable from the mounted one, clicking a selected
    symptom twice (which removes it and adds it again) gives a selection
    with the same members. *)
Theorem toggle_twice_keeps_members
        (es : list App.Event) (w : App.World) (x : jsstring) :
  App.run App.mounted es = Some w ->
  In x (App.selected (App.ui w)) ->
  exists w2,
    App.run w [App.ClickSymptom x; App.ClickSymptom x] = Some w2 /\
    forall y,
      In y (App.selected (App.ui w2)) <-> In y (App.selected (App.ui w)).
Proof.
  intros R I.
  destruct (Consistent_run es Consistent_mounted R) as (L & _).
  eexists; split; [reflexivity|].
  intros y; cbn [App.dispatch App.ui].
  rewrite !App_toggle_selected.
  apply toggle_twice_members; assumption.
Qed.

Lemma toggle_twice_keeps_members_witness :
  exists w2,
    App.run (Sample.pageAfter Sample.pickThree)
            [App.ClickSymptom (js "cough"); App.ClickSymptom (js "cough")]
    = Some w2 /\
    forall y,
      In y (App.selected (App.ui w2)) <->
      In y (App.selected (App.ui (Sample.pageAfter Sample.pickThree))).
Proof.
  apply (@toggle_twice_keeps_members Sample.pickThree).
  - vm_compute; reflexivity.
  - vm_compute; tauto.
Defined.

(** * Further properties of the code *)

(** ** Maps and the labels of the selected symptoms *)

Section Maps.

Variable V : Type.

Lemma mapGet_mapSet (k k' : jsstring) (v : V) (m : Map V) :
  mapGet k (mapSet k' v m) = if str_eqb k' k then Some v else mapGet k m.
Proof.
  induction m as [|[k1 v1] m IH]; simpl; [reflexivity|].
  destruct (str_eqb k1 k') eqn:E; simpl.
  - apply str_eqb_eq in E; subst k1.
    destruct (str_eqb k' k); reflexivity.
  - rewrite IH; destruct (str_eqb k1 k) eqn:E1; [|reflexivity].
    apply str_eqb_eq in E1; subst k1.
    destruct (str_eqb k' k) eqn:E2; [|reflexivity].
    apply str_eqb_eq in E2; subst k'.
    rewrite str_eqb_refl in E; discriminate.
Qed.

Let build (es : list (jsstring * V)) (m : Map V) : Map V :=
  fold_left (fun m e => mapSet (fst e) (snd e) m) es m.

Lemma mapGet_build_Some (k : jsstring) (v : V)
      (es : list (jsstring * V)) (m : Map V) :
  mapGet k (build es m) = Some v -> In (k, v) es \/ mapGet k m = Some v.
Proof.
  revert m; induction es as [|[k1 v1] es IH]; intros m; simpl; [auto|].
  intros H; apply IH in H; destruct H as [H | H]; [auto|].
  rewrite mapGet_mapSet in H; simpl in H.
  destruct (str_eqb k1 k) eqn:E; [|auto].
  apply str_eqb_eq in E; subst k1; injection H as ->; auto.
Qed.

Lemma mapGet_build_absent (k : jsstring)
      (es : list (jsstring * V)) (m : Map V) :
  ~ In k (map fst es) -> mapGet k (build es m) = mapGet k m.
Proof.
  revert m; induction es as [|[k1 v1] es IH]; intros m N; simpl;
    [reflexivity|].
  simpl in N; rewrite IH by tauto.
  rewrite mapGet_mapSet; simpl.
  destruct (str_eqb k1 k) eqn:E; [|reflexivity].
  apply str_eqb_eq in E; tauto.
Qed.

Lemma mapGet_build_unique (k : jsstring) (v : V)
      (es : list (jsstring * V)) (m : Map V) :
  NoDup (map fst es) -> In (k, v) es -> mapGet k (build es m) = Some v.
Proof.
  revert m; induction es as [|[k1 v1] es IH]; intros m D I; simpl;
    [destruct I|].
  inversion D as [|x l N D']; subst.
  destruct I as [E | I].
  - injection E as -> ->.
    rewrite mapGet_build_absent by assumption.
    rewrite mapGet_mapSet; simpl; rewrite str_eqb_refl; reflexivity.
  - apply IH; assumption.
Qed.

Lemma mapGet_newMap_Some (k : jsstring) (v : V) (es : list (jsstring * V)) :
  mapGet k (newMap es) = Some v -> In (k, v) es.
Proof.
  intros H; apply mapGet_build_Some in H; destruct H as [H | H];
    [assumption | discriminate].
Qed.

Lemma mapGet_newMap_None (k : jsstring) (es : list (jsstring * V)) :
  ~ In k (map fst es) -> mapGet k (newMap es) = None.
Proof. intros N; unfold newMap; fold (build es []);
         rewrite mapGet_build_absent by assumption; reflexivity. Qed.

Lemma mapGet_newMap_unique (k : jsstring) (v : V)
      (es : list (jsstring * V)) :
  NoDup (map fst es) -> In (k, v) es -> mapGet k (newMap es) = Some v.
Proof. apply mapGet_build_unique. Qed.

End Maps.

Lemma catalog_keys {B} (f : Symptom -> B) (L : list Symptom) :
  map fst (map (fun s => (en s, f s)) L) = map en L.
Proof. rewrite map_map; reflexivity. Qed.

(** App shows one pill per selected identifier.  With unique identifiers
    in the catalog, the pill of an identifier the catalog has carries the
    display label of that entry (the identifier itself when the label is
    the empty string), and the pill of an identifier the catalog lacks
    carries the identifier. *)
Theorem pills_show_catalog_labels
        (L : list Symptom) (sel : list jsstring) :
  NoDup (map en L) ->
  length (App.selectedDisplay L sel) = length sel /\
  Forall2
    (fun id text =>
       (forall s, In s L -> en s = id ->
                  text = if falsy (display s) then id else display s) /\
       ((forall s, In s L -> en s <> id) -> text = id))
    sel (App.selectedDisplay L sel).
Proof.
  intros D; unfold App.selectedDisplay; split; [apply length_map|].
  induction sel as [|id sel IH]; simpl; constructor; [|exact IH].
  split.
  - intros s I E.
    rewrite (@mapGet_newMap_unique _ id (display s)); [reflexivity| |].
    + rewrite catalog_keys; assumption.
    + apply in_map_iff; exists s; rewrite E; auto.
  - intros A.
    rewrite mapGet_newMap_None; [reflexivity|].
    rewrite catalog_keys, in_map_iff; intros (s & E & I).
    apply (A s I E).
Qed.

Lemma pills_show_catalog_labels_witness :
  App.selectedDisplay Sample.catalog [js "limp"; js "bloat"] =
  [display Sample.limp; js "bloat"].
Proof.
  destruct (@pills_show_catalog_labels Sample.catalog
              [js "limp"; js "bloat"]) as [_ F].
  - vm_compute; repeat constructor; simpl; intuition discriminate.
  - vm_compute; reflexivity.
Defined.

(** The chips of SymptomSelector carry the selected identifiers, in
    selection order: each chip is a catalog entry or the placeholder of its
    identifier, and deleting a chip that is shown takes its identifier out
    of the selection. *)
Theorem chips_carry_selected_identifiers
        (L : list Symptom) (sel : list jsstring) :
  map en (SymptomSelector.selectedDisplay L sel) = sel /\
  Forall (fun s => In s L \/ s = SymptomSelector.placeholder (en s))
         (SymptomSelector.selectedDisplay L sel) /\
  forall s,
    In s (SymptomSelector.selectedDisplay L sel) ->
    ~ In (en s) (SymptomSelector.removeChip false sel (en s)) /\
    length (SymptomSelector.removeChip false sel (en s)) < length sel.
Proof.
  assert (G : forall id,
             let s := match mapGet id (newMap (map (fun s => (en s, s)) L))
                      with
                      | Some s => s
                      | None => SymptomSelector.placeholder id
                      end in
             en s = id /\ (In s L \/ s = SymptomSelector.placeholder (en s))).
  { intros id; cbv zeta.
    destruct (mapGet id _) as [s|] eqn:E.
    - apply mapGet_newMap_Some, in_map_iff in E.
      destruct E as (s' & E & I); injection E as <- <-; auto.
    - split; [reflexivity | right; reflexivity]. }
  assert (M : map en (SymptomSelector.selectedDisplay L sel) = sel).
  { unfold SymptomSelector.selectedDisplay.
    induction sel as [|id sel IH]; simpl; [reflexivity|].
    rewrite IH; f_equal; apply (G id). }
  split; [exact M|split].
  - unfold SymptomSelector.selectedDisplay.
    apply Forall_forall; intros s I; apply in_map_iff in I.
    destruct I as (id & <- & _); apply (G id).
  - intros s I.
    assert (I' : In (en s) sel) by (rewrite <- M; apply in_map; exact I).
    unfold SymptomSelector.removeChip; split.
    + rewrite In_without; tauto.
    + apply length_without_In; exact I'.
Qed.

Lemma chips_carry_selected_identifiers_witness :
  ~ In (js "limp")
       (SymptomSelector.removeChip false [js "limp"; js "bloat"] (js "limp")).
Proof.
  destruct (@chips_carry_selected_identifiers Sample.catalog
              [js "limp"; js "bloat"]) as (_ & _ & H).
  apply (H Sample.limp).
  vm_compute; auto.
Defined.

(** ** Adding and removing *)

Lemma without_absent (sel : list jsstring) (x : jsstring) :
  ~ In x sel -> without sel x = sel.
Proof.
  intros N; apply filter_all; intros y I.
  destruct (str_eqb y x) eqn:E; [|reflexivity].
  apply str_eqb_eq in E; subst; contradiction.
Qed.

Lemma without_app_absent (sel : list jsstring) (x : jsstring) :
  ~ In x sel -> without (sel ++ [x]) x = sel.
Proof.
  intros N; unfold without; rewrite filter_app; simpl.
  rewrite str_eqb_refl; simpl; rewrite app_nil_r.
  apply without_absent; assumption.
Qed.

(** Removal comes first in [toggle]: a selected identifier is taken out
    whatever the size of the selection, the other entries keep their order,
    the alert is not touched and nothing is sent.  [SymptomSelector.toggle]
    removes it in the same way for every bound. *)
Theorem toggle_removes_at_any_size (st : App.State) (x : jsstring) :
  In x (App.selected st) ->
  App.toggle x st =
    (tt,
     App.mkState (App.animal st) (App.allSymptoms st)
                 (without (App.selected st) x) (App.query st)
                 (App.result st) (App.error st) (App.loading st),
     []) /\
  ~ In x (without (App.selected st) x) /\
  length (without (App.selected st) x) < length (App.selected st) /\
  Subsequence (without (App.selected st) x) (App.selected st) /\
  forall max,
    SymptomSelector.toggle max false (App.selected st) x
    = without (App.selected st) x.
Proof.
  intros I.
  pose proof (proj2 (arrayIncludes_In _ _) I) as A.
  unfold App.toggle, App.bind, App.read, SymptomSelector.toggle.
  rewrite A; simpl; repeat split.
  - rewrite In_without; tauto.
  - apply length_without_In; assumption.
  - apply filter_Subsequence.
Qed.

Lemma toggle_removes_at_any_size_witness :
  let sel := map (fun c => [c]) [97; 98; 99; 100; 101; 102; 103; 104; 105]%N in
  let st := App.mkState (js "Cow") [] sel empty None empty false in
  length (App.selected (App.stateAfter (App.toggle [97%N]) st)) = 8.
Proof.
  intros sel st; unfold App.stateAfter.
  destruct (@toggle_removes_at_any_size st [97%N]) as [E _].
  - left; reflexivity.
  - rewrite E; reflexivity.
Defined.

(** Below the bound, [toggle] of an identifier that is not selected puts it
    at the end of the selection, and a second [toggle] of it gives back the
    state there was, order included. *)
Theorem toggle_add_then_remove (st : App.State) (x : jsstring) :
  ~ In x (App.selected st) ->
  length (App.selected st) < 8 ->
  App.selected (App.stateAfter (App.toggle x) st) = App.selected st ++ [x] /\
  App.stateAfter (App.toggle x) (App.stateAfter (App.toggle x) st) = st /\
  SymptomSelector.toggle 8 false
    (SymptomSelector.toggle 8 false (App.selected st) x) x = App.selected st.
Proof.
  intros N L.
  pose proof (proj2 (arrayIncludes_not_In _ _) N) as A.
  assert (B : (8 <=? length (App.selected st)) = false)
    by (apply Nat.leb_gt; assumption).
  assert (A' : arrayIncludes (App.selected st ++ [x]) x = true)
    by (apply arrayIncludes_In, in_or_app; right; left; reflexivity).
  assert (E : App.stateAfter (App.toggle x) st =
              App.mkState (App.animal st) (App.allSymptoms st)
                          (App.selected st ++ [x]) (App.query st)
                          (App.result st) (App.error st) (App.loading st)).
  { unfold App.stateAfter, App.toggle, App.bind, App.read.
    rewrite A, B; reflexivity. }
  split; [rewrite E; reflexivity|split].
  - rewrite E; unfold App.stateAfter, App.toggle, App.bind, App.read.
    cbn [App.selected]; rewrite A'; simpl.
    rewrite without_app_absent by assumption.
    destruct st; reflexivity.
  - unfold SymptomSelector.toggle; rewrite A, B, A'.
    apply without_app_absent; assumption.
Qed.

Lemma toggle_add_then_remove_witness :
  let st := App.ui (Sample.pageAfter Sample.pickThree) in
  App.stateAfter (App.toggle (js "bloat"))
                 (App.stateAfter (App.toggle (js "bloat")) st) = st.
Proof.
  intros st.
  apply (@toggle_add_then_remove st (js "bloat")).
  - vm_compute; intuition discriminate.
  - vm_compute; lia.
Defined.

(** In SymptomSelector the checkbox of an identifier is the blocked one
    exactly when [toggle] of the identifier would leave the selection as it
    is. *)
Theorem blocked_iff_toggle_changes_nothing
        (max : nat) (sel : list jsstring) (x : jsstring) :
  SymptomSelector.toggle max false sel x = sel <->
  SymptomSelector.blocked max sel x = true.
Proof.
  unfold SymptomSelector.toggle, SymptomSelector.blocked.
  destruct (arrayIncludes sel x) eqn:A; simpl.
  - apply arrayIncludes_In in A.
    pose proof (length_without_In sel x A) as Lt.
    split; [|discriminate].
    intros E; rewrite E in Lt; lia.
  - destruct (max <=? length sel); split; try reflexivity; try discriminate.
    intros E; apply (f_equal (@length _)) in E.
    rewrite length_app in E; simpl in E; lia.
Qed.

(** The cross of a pill removes its identifier at any size and whatever
    [loading] is; it does what [toggle] does for a selected identifier and
    changes nothing for one that is not selected. *)
Theorem pill_removal (st : App.State) (x : jsstring) :
  ~ In x (App.selected (App.stateAfter (App.removePill x) st)) /\
  App.requestsOf (App.removePill x) st = [] /\
  (In x (App.selected st) -> App.removePill x st = App.toggle x st) /\
  (~ In x (App.selected st) -> App.stateAfter (App.removePill x) st = st).
Proof.
  unfold App.stateAfter, App.requestsOf, App.removePill, App.toggle,
    App.bind, App.read; simpl; repeat split.
  - rewrite In_without; tauto.
  - intros I; rewrite (proj2 (arrayIncludes_In _ _) I); reflexivity.
  - intros N; rewrite without_absent by assumption.
    destruct st; reflexivity.
Qed.

Lemma pill_removal_witness :
  let st := App.ui (Sample.pageAfter Sample.pickThree) in
  App.removePill (js "cough") st = App.toggle (js "cough") st.
Proof.
  intros st.
  apply (@pill_removal st (js "cough")).
  vm_compute; tauto.
Defined.

(** ** More on the search *)

Section SearchMore.

Lemma filter_Subsequence_mono {A} (p p' : A -> bool) (l : list A) :
  (forall x, p x = true -> p' x = true) ->
  Subsequence (filter p l) (filter p' l).
Proof.
  intros H; induction l as [|x l IH]; simpl; [constructor|].
  destruct (p x) eqn:P.
  - rewrite (H x P); constructor; assumption.
  - destruct (p' x); [constructor|]; assumption.
Qed.

Lemma Substring_trans (a b c : jsstring) :
  Substring a b -> Substring b c -> Substring a c.
Proof.
  intros (x & y & ->) (u & v & ->).
  exists (u ++ x), (y ++ v); rewrite <- !app_assoc; reflexivity.
Qed.

Lemma includes_trans (s t u : jsstring) :
  includes t u = true -> includes s t = true -> includes s u = true.
Proof.
  rewrite !includes_Substring; apply Substring_trans.
Qed.

Lemma trimStart_app_blank (a s : jsstring) :
  whitespaceOnly a -> trimStart (a ++ s) = trimStart s.
Proof.
  induction 1 as [|c a Hc _ IH]; simpl; [reflexivity|].
  rewrite Hc; exact IH.
Qed.

Lemma trimStart_app_keep (s b : jsstring) :
  trimStart s <> [] -> trimStart (s ++ b) = trimStart s ++ b.
Proof.
  induction s as [|c s IH]; simpl; [congruence|].
  destruct (isWhiteSpace c); [exact IH | reflexivity].
Qed.

Lemma trimEnd_app_blank (s b : jsstring) :
  whitespaceOnly b -> trimEnd (s ++ b) = trimEnd s.
Proof.
  intros W; unfold trimEnd; rewrite rev_app_distr, trimStart_app_blank;
    [reflexivity | apply whitespaceOnly_rev; assumption].
Qed.

Lemma trim_surrounding_blanks (a q b : jsstring) :
  whitespaceOnly a -> whitespaceOnly b -> trim (a ++ q ++ b) = trim q.
Proof.
  intros Wa Wb; unfold trim; rewrite trimStart_app_blank by assumption.
  destruct (trimStart q) as [|c r] eqn:E.
  - apply (proj1 (trimStart_nil _)) in E.
    rewrite (proj2 (trimStart_nil (q ++ b))); [reflexivity|].
    apply whitespaceOnly_app; split; assumption.
  - rewrite trimStart_app_keep by congruence.
    rewrite E; apply trimEnd_app_blank; assumption.
Qed.

End SearchMore.

(** Whatever the catalog and the query, every entry the search of App
    keeps is kept by the search of SymptomSelector, in the same order. *)
Theorem app_search_within_selector_search
        {B : StringBuiltins} (L : list Symptom) (q : jsstring) :
  Subsequence (App.filteredSymptoms L q) (SymptomSelector.filtered L q).
Proof.
  rewrite filteredSymptoms_filter, filtered_filter.
  apply filter_Subsequence_mono; intros s H; cbv beta.
  rewrite H; reflexivity.
Qed.

Lemma app_search_within_selector_search_witness :
  Subsequence
    (App.filteredSymptoms (B := plainLowerCase) Sample.catalog (js "nasal_d"))
    (SymptomSelector.filtered (B := plainLowerCase) Sample.catalog
                              (js "nasal_d")).
Proof.
  apply (@app_search_within_selector_search plainLowerCase).
Defined.

(** Typing more narrows the search.  When the lower case of the trimmed
    query occurs in the lower case of the trimmed longer query (for a
    trimmed query of plain text: when it occurs in the trimmed longer query
    up to the case of its letters), the entries found for the longer query
    are among those found for the shorter one. *)
Theorem longer_query_narrows_search
        {B : StringBuiltins} (L : list Symptom) (q q' : jsstring) :
  Substring (toLowerCase (trim q)) (toLowerCase (trim q')) \/
  (Plain (trim q) /\ occursIgnoringCase (trim q) (trim q')) ->
  Subsequence (App.filteredSymptoms L q') (App.filteredSymptoms L q) /\
  Subsequence (SymptomSelector.filtered L q') (SymptomSelector.filtered L q).
Proof.
  intros H.
  assert (S : Substring (toLowerCase (trim q)) (toLowerCase (trim q'))).
  { destruct H as [H | [P O]]; [exact H|].
    exact (occurs_containsCI P O). }
  clear H; apply includes_Substring in S.
  rewrite !filteredSymptoms_filter, !filtered_filter; split;
    apply filter_Subsequence_mono; intros s; cbv beta.
  - apply includes_trans; assumption.
  - rewrite !orb_true_iff.
    intros [[H | H] | H]; [left; left | left; right | right];
      apply (@includes_trans _ _ _ S H).
Qed.

Lemma longer_query_narrows_search_witness :
  Subsequence
    (App.filteredSymptoms (B := plainLowerCase) Sample.catalog (js "Fever "))
    (App.filteredSymptoms (B := plainLowerCase) Sample.catalog (js " fe")).
Proof.
  apply (@longer_query_narrows_search plainLowerCase Sample.catalog
           (js " fe") (js "Fever ")).
  right; split; [reflexivity|].
  exists [], (js "Fe"), (js "ver").
  split; [reflexivity|split; reflexivity].
Defined.

(** Blanks typed before or after the query do not change what either
    search returns. *)
Theorem search_ignores_surrounding_blanks
        {B : StringBuiltins} (L : list Symptom) (a q b : jsstring) :
  whitespaceOnly a ->
  whitespaceOnly b ->
  App.filteredSymptoms L (a ++ q ++ b) = App.filteredSymptoms L q /\
  SymptomSelector.filtered L (a ++ q ++ b) = SymptomSelector.filtered L q.
Proof.
  intros Wa Wb.
  unfold App.filteredSymptoms, SymptomSelector.filtered.
  rewrite (trim_surrounding_blanks q Wa Wb); split; reflexivity.
Qed.

Lemma search_ignores_surrounding_blanks_witness :
  App.filteredSymptoms (B := plainLowerCase) Sample.catalog
                       (js "  " ++ js "cough" ++ js " ")
  = App.filteredSymptoms (B := plainLowerCase) Sample.catalog (js "cough").
Proof.
  apply (@search_ignores_surrounding_blanks plainLowerCase Sample.catalog
           (js "  ") (js "cough") (js " "));
    repeat constructor.
Defined.

(** ** Base address *)

(** The base address is never the empty string: a setting that is missing,
    empty or made of blanks gives the default address, any other gives the
    setting without its surrounding blanks. *)
Theorem base_address_defaults (setting : option jsstring) :
  Api.API_BASE setting <> empty /\
  (setting = None -> Api.API_BASE setting = Api.defaultBase) /\
  (forall v, setting = Some v ->
             (whitespaceOnly v -> Api.API_BASE setting = Api.defaultBase) /\
             (~ whitespaceOnly v -> Api.API_BASE setting = trim v)).
Proof.
  unfold Api.API_BASE; destruct setting as [v|].
  - split; [|split; [discriminate|]].
    + destruct (trim v) eqn:T; simpl; discriminate.
    + intros w E; injection E as <-.
      pose proof (trim_nil v) as [T1 T2].
      destruct (trim v) as [|c r] eqn:T; simpl; split.
      * reflexivity.
      * intros W; elim W; apply T1; reflexivity.
      * intros W; specialize (T2 W); discriminate.
      * reflexivity.
  - split; [discriminate|split; [reflexivity|discriminate]].
Qed.

Lemma base_address_defaults_witness :
  Api.API_BASE (Some (js "   ")) = Api.defaultBase /\
  Api.API_BASE (Some (js " http://farm.example:9000 "))
  = js "http://farm.example:9000".
Proof.
  split.
  - apply (@base_address_defaults (Some (js "   ")) ) with (v := js "   ");
      [reflexivity | repeat constructor].
  - change (js "http://farm.example:9000")
      with (trim (js " http://farm.example:9000 ")).
    apply (@base_address_defaults (Some (js " http://farm.example:9000 ")))
      with (v := js " http://farm.example:9000 "); [reflexivity|].
    intros W; inversion W as [|c l _ W1]; inversion W1 as [|c' l' Hc _].
    vm_compute in Hc; discriminate.
Defined.

(** ** Requests of the page *)

Section Requests.

Lemma answer_none (kind : Api.Request -> bool) (l : list Api.Request) :
  length (filter kind l) = 0 -> App.answer kind l = None.
Proof.
  induction l as [|r l IH]; simpl; [reflexivity|].
  destruct (kind r); simpl; [discriminate|].
  intros H; rewrite (IH H); reflexivity.
Qed.

Lemma answer_some (kind : Api.Request -> bool) (l : list Api.Request) :
  0 < length (filter kind l) ->
  exists r rest, App.answer kind l = Some (r, rest).
Proof.
  induction l as [|r l IH]; simpl; [lia|].
  destruct (kind r); simpl; [intros _; eauto|].
  intros H; destruct (IH H) as (r' & rest & ->); eauto.
Qed.

Lemma answer_fresh (kind : Api.Request -> bool) (l : list Api.Request)
      (r : Api.Request) :
  length (filter kind l) = 0 -> kind r = true ->
  App.answer kind (l ++ [r]) = Some (r, l).
Proof.
  intros H K; induction l as [|x l IH]; simpl; [rewrite K; reflexivity|].
  simpl in H; destruct (kind x); simpl in H; [discriminate|].
  rewrite (IH H); reflexivity.
Qed.

Lemma toggle_frame_catalog (x : jsstring) (st : App.State) :
  App.animal (App.stateAfter (App.toggle x) st) = App.animal st /\
  App.allSymptoms (App.stateAfter (App.toggle x) st) = App.allSymptoms st.
Proof.
  unfold App.stateAfter, App.toggle, App.bind, App.read.
  destruct (arrayIncludes (App.selected st) x); [split; reflexivity|].
  destruct (8 <=? length (App.selected st)); split; reflexivity.
Qed.

Lemma Orderly_mounted : Orderly App.mounted.
Proof.
  split; [apply Consistent_mounted|].
  split; [exists App.Cow; reflexivity|].
  split; [repeat constructor|].
  split; [reflexivity|split; [apply Nat.le_refl|reflexivity]].
Qed.

Lemma Orderly_step (w w' : App.World) (e : App.Event) :
  Orderly w -> App.step w e = Some w' -> Orderly w'.
Proof.
  intros (C & A & F & G1 & G2 & G3) S.
  split; [exact (Consistent_step e C S)|].
  destruct C as (L & D & O & R).
  unfold catalogRequests in *.
  destruct e as [a|q|x|x| | |t|t]; cbn [App.step] in S.
  - injection S as <-; simpl; rewrite !app_nil_r; eauto 10.
  - injection S as <-; simpl; rewrite !app_nil_r; auto 10.
  - injection S as <-.
    destruct (toggle_frame x (App.ui w)) as (_ & _ & F3).
    destruct (toggle_frame_catalog x (App.ui w)) as (F4 & F5).
    cbn [App.dispatch App.ui App.sent App.inFlight].
    rewrite F3, F4, F5, !app_nil_r; auto 10.
  - injection S as <-; simpl; rewrite !app_nil_r; auto 10.
  - injection S as <-; simpl; rewrite !app_nil_r; auto 10.
  - destruct (App.loading (App.ui w)) eqn:Ld.
    + injection S as <-; auto 10.
    + injection S as <-.
      unfold App.dispatch, App.stateAfter, App.requestsOf, App.onPredict,
        App.bind, App.read; simpl.
      destruct (length (App.selected (App.ui w)) <? 3) eqn:Lt; simpl;
        rewrite ?app_nil_r; auto 10.
      apply Nat.ltb_ge in Lt.
      rewrite !filter_app, !length_app; simpl; rewrite !Nat.add_0_r.
      repeat split; auto.
      apply Forall_app; split; [assumption|].
      constructor; [|constructor].
      simpl; repeat split; auto.
  - destruct (App.answer App.isCatalog (App.inFlight w))
      as [[r rest]|] eqn:An; [|discriminate].
    injection S as <-.
    destruct (answer_count App.isCatalog App.isCatalog _ An) as [K Cn].
    rewrite K in Cn.
    unfold App.dispatch, App.stateAfter, App.requestsOf; simpl.
    destruct (Api.axiosData t); simpl; rewrite !app_nil_r;
      repeat split; auto; lia.
  - destruct (App.answer App.isPredict (App.inFlight w))
      as [[[path|path payload] rest]|] eqn:An; try discriminate.
    injection S as <-.
    destruct (answer_count App.isPredict App.isCatalog _ An) as [_ Cn].
    simpl in Cn; rewrite Nat.add_0_r in Cn.
    unfold App.dispatch, App.stateAfter, App.requestsOf; simpl.
    destruct (Api.axiosData t); simpl; rewrite !app_nil_r, <- Cn;
      repeat split; auto.
Qed.

Lemma Orderly_run (es : list App.Event) (w w' : App.World) :
  Orderly w -> App.run w es = Some w' -> Orderly w'.
Proof.
  revert w; induction es as [|e es IH]; intros w C; simpl.
  - intros H; injection H as <-; assumption.
  - destruct (App.step w e) as [w1|] eqn:S; [|discriminate].
    apply IH, (Orderly_step e C S).
Qed.

End Requests.

(** Every request the page has sent, after any events, is well formed: the
    catalog request, sent exactly once, or a prediction request to
    [/predict] with [top_k] 3, between 3 and 8 distinct symptoms and the
    value of one of the four animal options. *)
Theorem requests_sent_are_well_formed (es : list App.Event) (w : App.World) :
  App.run App.mounted es = Some w ->
  Forall wellFormedRequest (App.sent w) /\
  catalogRequests (App.sent w) = 1.
Proof.
  intros R.
  destruct (Orderly_run es Orderly_mounted R) as (_ & _ & F & G & _).
  split; assumption.
Qed.

Lemma requests_sent_are_well_formed_witness :
  Forall wellFormedRequest (App.sent (Sample.pageAfter Sample.resultThenTwo)).
Proof.
  apply (@requests_sent_are_well_formed Sample.resultThenTwo).
  vm_compute; reflexivity.
Defined.

Lemma sent_after_step (w w' : App.World) (e : App.Event) :
  App.step w e = Some w' ->
  let valid :=
    e = App.ClickPredict /\
    App.loading (App.ui w) = false /\
    3 <= length (App.selected (App.ui w)) in
  (valid /\
   App.sent w' =
   App.sent w
   ++ [Api.POST (js "/predict")
                (Api.mkPayload (App.animal (App.ui w))
                               (App.selected (App.ui w)) 3)]) \/
  (~ valid /\ App.sent w' = App.sent w).
Proof.
  intros S valid; subst valid.
  destruct e as [a|q|x|x| | |t|t]; cbn [App.step] in S.
  - injection S as <-; right; split; [intros [E _]; discriminate|].
    simpl; apply app_nil_r.
  - injection S as <-; right; split; [intros [E _]; discriminate|].
    simpl; apply app_nil_r.
  - injection S as <-; right; split; [intros [E _]; discriminate|].
    destruct (toggle_frame x (App.ui w)) as (_ & _ & F3).
    cbn [App.dispatch App.sent]; rewrite F3; apply app_nil_r.
  - injection S as <-; right; split; [intros [E _]; discriminate|].
    simpl; apply app_nil_r.
  - injection S as <-; right; split; [intros [E _]; discriminate|].
    simpl; apply app_nil_r.
  - destruct (App.loading (App.ui w)) eqn:Ld.
    + injection S as <-; right; split; [|reflexivity].
      intros (_ & L & _); discriminate.
    + injection S as <-.
      unfold App.dispatch, App.stateAfter, App.requestsOf, App.onPredict,
        App.bind, App.read; simpl.
      destruct (length (App.selected (App.ui w)) <? 3) eqn:Lt; simpl.
      * right; apply Nat.ltb_lt in Lt; split; [|apply app_nil_r].
        intros (_ & _ & L); lia.
      * left; apply Nat.ltb_ge in Lt; auto.
  - destruct (App.answer App.isCatalog (App.inFlight w))
      as [[r rest]|]; [|discriminate].
    injection S as <-; right; split; [intros [E _]; discriminate|].
    unfold App.dispatch, App.requestsOf; simpl.
    destruct (Api.axiosData t); simpl; apply app_nil_r.
  - destruct (App.answer App.isPredict (App.inFlight w))
      as [[[path|path payload] rest]|]; try discriminate.
    injection S as <-; right; split; [intros [E _]; discriminate|].
    unfold App.dispatch, App.requestsOf; simpl.
    destruct (Api.axiosData t); simpl; apply app_nil_r.
Qed.

(** A request leaves the page on one event only: a click on Predict while
    [loading] is off and at least 3 symptoms are selected adds exactly one
    prediction request, with the animal and selection of that moment, to
    the requests sent.  Every other event leaves the requests sent as they
    are. *)
Theorem only_valid_predict_click_sends
        (w w' : App.World) (e : App.Event) :
  App.step w e = Some w' ->
  (e = App.ClickPredict /\
   App.loading (App.ui w) = false /\
   3 <= length (App.selected (App.ui w)) ->
   App.sent w' =
   App.sent w
   ++ [Api.POST (js "/predict")
                (Api.mkPayload (App.animal (App.ui w))
                               (App.selected (App.ui w)) 3)]) /\
  (~ (e = App.ClickPredict /\
      App.loading (App.ui w) = false /\
      3 <= length (App.selected (App.ui w))) ->
   App.sent w' = App.sent w).
Proof.
  intros S; destruct (sent_after_step w e S) as [[V E] | [V E]]; split;
    intros H; try assumption; contradiction.
Qed.

Lemma only_valid_predict_click_sends_witness :
  let w := Sample.pageAfter Sample.pickThree in
  App.sent (Sample.pageAfter Sample.submission) =
  App.sent w
  ++ [Api.POST (js "/predict")
               (Api.mkPayload (js "Cow") [js "fever"; js "cough"; js "limp"]
                              3)] /\
  App.sent (Sample.pageAfter (Sample.pickThree ++ [App.ClickClear]))
  = App.sent w.
Proof.
  intros w; split.
  - apply (@only_valid_predict_click_sends w
             (Sample.pageAfter Sample.submission) App.ClickPredict).
    + vm_compute; reflexivity.
    + split; [reflexivity|split; [reflexivity|vm_compute; lia]].
  - apply (@only_valid_predict_click_sends w
             (Sample.pageAfter (Sample.pickThree ++ [App.ClickClear]))
             App.ClickClear).
    + vm_compute; reflexivity.
    + intros [E _]; discriminate.
Defined.

(** The catalog is loaded once and never asked for again.  When its
    request is answered, no second answer can come and nothing is sent; if
    the transport reports a failure, the alert gets the load-failure
    message and the catalog stays empty; a 2xx answer stores the list it
    carries (the empty list when the member or the body is missing).
    Selection, result and [loading] are not touched. *)
Theorem catalog_loaded_once
        (es : list App.Event) (w w' : App.World)
        (t : Api.Transport (option Api.SymptomsBody)) :
  App.run App.mounted es = Some w ->
  App.step w (App.CatalogSettled t) = Some w' ->
  (forall t', App.step w' (App.CatalogSettled t') = None) /\
  App.sent w' = App.sent w /\
  App.selected (App.ui w') = App.selected (App.ui w) /\
  App.result (App.ui w') = App.result (App.ui w) /\
  App.loading (App.ui w') = App.loading (App.ui w) /\
  (transportFailure t ->
   App.error (App.ui w') = App.msgLoadFailed /\
   App.allSymptoms (App.ui w') = []) /\
  (forall status l,
      t = Api.Responded status (Some (Api.mkSymptomsBody (Some l))) ->
      Api.validateStatus status = true ->
      App.allSymptoms (App.ui w') = l /\
      App.error (App.ui w') = App.error (App.ui w)).
Proof.
  intros R S.
  destruct (Orderly_run es Orderly_mounted R) as (_ & _ & _ & _ & G2 & G3).
  unfold catalogRequests in *.
  cbn [App.step] in S.
  destruct (App.answer App.isCatalog (App.inFlight w))
    as [[r rest]|] eqn:An; [|discriminate].
  destruct (answer_count App.isCatalog App.isCatalog _ An) as [K Cn].
  rewrite K in Cn.
  injection S as <-.
  split.
  { intros t'.
    match goal with
    | |- App.step ?w1 _ = None =>
        assert (Z : length (filter App.isCatalog (App.inFlight w1)) = 0)
    end.
    { unfold App.dispatch, App.requestsOf; simpl.
      destruct (Api.axiosData t); simpl; rewrite app_nil_r; lia. }
    unfold App.step; rewrite (answer_none _ _ Z); reflexivity. }
  assert (E : App.allSymptoms (App.ui w) = []) by (apply G3; lia).
  unfold App.dispatch, App.stateAfter, App.requestsOf; simpl.
  destruct t as [| |status data]; simpl;
    [| |destruct (Api.validateStatus status) eqn:V; simpl];
    rewrite app_nil_r; repeat split; auto; try discriminate; intros;
    try match goal with
        | H : Api.Responded _ _ = Api.Responded _ _ |- _ =>
            injection H as -> ->
        end;
    try reflexivity; congruence.
Qed.

Lemma catalog_loaded_once_witness :
  let w' := Sample.pageAfter [App.CatalogSettled Api.TimedOut] in
  App.error (App.ui w') = App.msgLoadFailed /\
  App.allSymptoms (App.ui w') = [].
Proof.
  intros w'.
  apply (@catalog_loaded_once [] App.mounted w' Api.TimedOut).
  - reflexivity.
  - vm_compute; reflexivity.
  - exact I.
Defined.

(** ** Loading, clearing and the answer *)

(** While [loading] is set the page holds no result: the output card shows
    its placeholder from the click on Predict until the answer arrives. *)
Theorem no_result_while_loading (es : list App.Event) (w : App.World) :
  App.run App.mounted es = Some w ->
  App.loading (App.ui w) = true ->
  App.result (App.ui w) = None.
Proof.
  intros R.
  destruct (Consistent_run es Consistent_mounted R) as (_ & _ & _ & N).
  exact N.
Qed.

Lemma no_result_while_loading_witness :
  App.result
    (App.ui (Sample.pageAfter (Sample.resultThenTwo
                               ++ [App.ClickSymptom (js "limp");
                                   App.ClickPredict]))) = None.
Proof.
  apply (@no_result_while_loading
           (Sample.resultThenTwo
            ++ [App.ClickSymptom (js "limp"); App.ClickPredict])).
  - vm_compute; reflexivity.
  - vm_compute; reflexivity.
Defined.

(** Whatever the outcome of the prediction call, its settlement switches
    [loading] off and leaves no prediction request unanswered, so that the
    button is enabled again; selection, animal, query and catalog are as
    they were.  When [loading] is off there is no request a settlement
    could answer. *)
Theorem settlement_ends_loading
        (es : list App.Event) (w : App.World)
        (t : Api.Transport Api.PredictionResult) :
  App.run App.mounted es = Some w ->
  (App.loading (App.ui w) = true ->
   exists w',
     App.step w (App.PredictSettled t) = Some w' /\
     App.loading (App.ui w') = false /\
     App.outstanding w' = 0 /\
     App.selected (App.ui w') = App.selected (App.ui w) /\
     App.animal (App.ui w') = App.animal (App.ui w) /\
     App.query (App.ui w') = App.query (App.ui w) /\
     App.allSymptoms (App.ui w') = App.allSymptoms (App.ui w)) /\
  (App.loading (App.ui w) = false ->
   App.step w (App.PredictSettled t) = None).
Proof.
  intros R.
  pose proof (Consistent_run es Consistent_mounted R) as C.
  destruct C as (_ & _ & O & _).
  split; intros Ld; rewrite Ld in O; unfold App.outstanding in O.
  - destruct (@answer_some App.isPredict (App.inFlight w)) as (r & rest & An);
      [lia|].
    destruct (answer_count App.isPredict App.isPredict _ An) as [K Cn].
    rewrite K in Cn.
    destruct r as [path|path payload]; [discriminate|].
    eexists; cbn [App.step]; rewrite An; split; [reflexivity|].
    unfold App.outstanding, App.dispatch, App.stateAfter, App.requestsOf.
    simpl; destruct (Api.axiosData t); simpl; rewrite app_nil_r;
      repeat split; lia.
  - cbn [App.step]; rewrite (answer_none _ _ O); reflexivity.
Qed.

Lemma settlement_ends_loading_witness :
  exists w',
    App.step (Sample.pageAfter Sample.submission)
             (App.PredictSettled Api.NetworkError) = Some w' /\
    App.loading (App.ui w') = false.
Proof.
  destruct (@settlement_ends_loading Sample.submission
              (Sample.pageAfter Sample.submission) Api.NetworkError)
    as [H _]; [vm_compute; reflexivity|].
  destruct H as (w' & S & Ld & _); [vm_compute; reflexivity|].
  exists w'; split; assumption.
Defined.

(** Clear does not cancel a prediction in flight: the request stays
    unanswered and [loading] stays set, and a 2xx answer that arrives
    afterwards becomes the result although the selection is empty. *)
Theorem clear_does_not_cancel
        (es : list App.Event) (w : App.World)
        (status : N) (data : Api.PredictionResult) :
  App.run App.mounted es = Some w ->
  App.loading (App.ui w) = true ->
  Api.validateStatus status = true ->
  exists w1 w2,
    App.step w App.ClickClear = Some w1 /\
    App.loading (App.ui w1) = true /\
    App.outstanding w1 = 1 /\
    App.step w1 (App.PredictSettled (Api.Responded status data)) = Some w2 /\
    App.result (App.ui w2) = Some data /\
    App.selected (App.ui w2) = [] /\
    App.loading (App.ui w2) = false.
Proof.
  intros R Ld V.
  pose proof (Consistent_run es Consistent_mounted R) as C.
  assert (C1 : Consistent (App.dispatch App.clearAll w))
    by (apply (@Consistent_step w _ App.ClickClear C); reflexivity).
  destruct C1 as (_ & _ & O & _).
  change (App.loading (App.ui (App.dispatch App.clearAll w)))
    with (App.loading (App.ui w)) in O.
  rewrite Ld in O.
  destruct (@answer_some App.isPredict
              (App.inFlight (App.dispatch App.clearAll w)))
    as (r & rest & An); [unfold App.outstanding in O; lia|].
  destruct (answer_count App.isPredict App.isPredict _ An) as [K _].
  destruct r as [path|path payload]; [discriminate|].
  eexists; eexists; split; [reflexivity|].
  split; [exact Ld|split; [exact O|]].
  cbn [App.step]; rewrite An; split; [reflexivity|].
  unfold App.dispatch, App.stateAfter; simpl; rewrite V; simpl.
  repeat split.
Qed.

Lemma clear_does_not_cancel_witness :
  exists w1 w2,
    App.step (Sample.pageAfter Sample.submission) App.ClickClear = Some w1 /\
    App.loading (App.ui w1) = true /\
    App.outstanding w1 = 1 /\
    App.step w1 (App.PredictSettled (Api.Responded 200 Sample.footRot))
    = Some w2 /\
    App.result (App.ui w2) = Some Sample.footRot /\
    App.selected (App.ui w2) = [] /\
    App.loading (App.ui w2) = false.
Proof.
  apply (@clear_does_not_cancel Sample.submission
           (Sample.pageAfter Sample.submission) 200 Sample.footRot);
    vm_compute; reflexivity.
Defined.

(** A valid submission answered by a 2xx response, with no event between
    the click and the answer, ends with the response as the result, no
    alert and [loading] off; animal, catalog, selection and query are as
    before the click, and exactly one request was sent. *)
Theorem submit_then_success
        (es : list App.Event) (w : App.World)
        (status : N) (data : Api.PredictionResult) :
  App.run App.mounted es = Some w ->
  App.loading (App.ui w) = false ->
  3 <= length (App.selected (App.ui w)) ->
  Api.validateStatus status = true ->
  exists w2,
    App.run w [App.ClickPredict;
               App.PredictSettled (Api.Responded status data)] = Some w2 /\
    App.ui w2 =
      App.mkState (App.animal (App.ui w)) (App.allSymptoms (App.ui w))
                  (App.selected (App.ui w)) (App.query (App.ui w))
                  (Some data) empty false /\
    App.sent w2 =
      App.sent w
      ++ [Api.POST (js "/predict")
                   (Api.mkPayload (App.animal (App.ui w))
                                  (App.selected (App.ui w)) 3)] /\
    App.outstanding w2 = 0.
Proof.
  intros R Ld L V.
  destruct (Consistent_run es Consistent_mounted R) as (_ & _ & O & _).
  rewrite Ld in O; unfold App.outstanding in O.
  apply Nat.ltb_ge in L.
  set (req := Api.POST (js "/predict")
                (Api.mkPayload (App.animal (App.ui w))
                               (App.selected (App.ui w)) 3)).
  assert (E : App.step w App.ClickPredict =
              Some (App.mkWorld
                      (App.mkState (App.animal (App.ui w))
                                   (App.allSymptoms (App.ui w))
                                   (App.selected (App.ui w))
                                   (App.query (App.ui w)) None empty true)
                      (App.sent w ++ [req]) (App.inFlight w ++ [req]))).
  { cbn [App.step]; rewrite Ld.
    unfold App.dispatch, App.stateAfter, App.requestsOf, App.onPredict,
      App.bind, App.read; simpl; rewrite L; reflexivity. }
  eexists; cbn [App.run]; rewrite E.
  cbn [App.step App.inFlight].
  rewrite (@answer_fresh App.isPredict (App.inFlight w) req O eq_refl).
  split; [reflexivity|].
  unfold App.outstanding, App.dispatch, App.stateAfter, App.requestsOf.
  simpl; rewrite V; simpl; rewrite !app_nil_r.
  repeat split; assumption.
Qed.

Lemma submit_then_success_witness :
  exists w2,
    App.run (Sample.pageAfter Sample.pickThree)
            [App.ClickPredict;
             App.PredictSettled (Api.Responded 200 Sample.footRot)]
    = Some w2 /\
    App.result (App.ui w2) = Some Sample.footRot /\
    App.error (App.ui w2) = empty.
Proof.
  destruct (@submit_then_success Sample.pickThree
              (Sample.pageAfter Sample.pickThree) 200 Sample.footRot)
    as (w2 & R & U & _).
  - vm_compute; reflexivity.
  - vm_compute; reflexivity.
  - vm_compute; lia.
  - reflexivity.
  - exists w2; split; [exact R|rewrite U; split; reflexivity].
Defined.

(** ** The output card *)

Section Card.

Lemma rowsFrom_Some (i : nat) (ps : list Api.Prediction) :
  App.isSome (App.rowsFrom i ps)
  = forallb (fun p => App.isSome (Api.disease p)) ps.
Proof.
  revert i; induction ps as [|p ps IH]; intros i; simpl; [reflexivity|].
  rewrite <- (IH (S i)).
  destruct (Api.disease p); simpl; [|reflexivity].
  destruct (App.rowsFrom (S i) ps); reflexivity.
Qed.

Lemma rowsFrom_rows (i : nat) (ps : list Api.Prediction)
      (rows : list App.Row) :
  App.rowsFrom i ps = Some rows ->
  Forall2 (fun p row =>
             option_map (fun d => App.textOf (d_display d)) (Api.disease p)
             = Some (App.row_disease row)
             /\ App.row_percent row = Api.probability_percent p) ps rows /\
  forall j row, nth_error rows j = Some row ->
                App.row_highlight row = (i + j =? 0).
Proof.
  revert i rows; induction ps as [|p ps IH]; intros i rows; simpl.
  - intros H; injection H as <-; split; [constructor|].
    intros [|j] row H; discriminate.
  - destruct (Api.disease p) as [d|] eqn:D; [|discriminate].
    destruct (App.rowsFrom (S i) ps) as [rs|] eqn:E; [|discriminate].
    intros H; injection H as <-.
    destruct (IH (S i) rs E) as [F N]; split.
    + constructor; [rewrite D; split; reflexivity | exact F].
    + intros [|j] row H; simpl in H.
      * injection H as <-; rewrite Nat.add_0_r; reflexivity.
      * rewrite (N j row H); f_equal; lia.
Qed.

End Card.

(** For a result whose members, where present, are of the kinds of the
    contract, the output card of App renders exactly when the result has an
    animal, a risk whose overall descriptor has a display label, a symptom
    list and a prediction list in which every prediction has a disease.
    The display labels of the animal, the symptoms and the diseases, the
    explanation, the probabilities and the two guidance texts may be
    missing; a risk without a display label makes [RiskBadge] throw. *)
Theorem card_renders_iff {B : StringBuiltins} (r : Api.PredictionResult) :
  ((exists c, App.outputCard r = Some c) <-> App.outputRenders r = true) /\
  (forall k o, Api.res_risk r = Some k -> Api.overall k = Some o ->
               d_display o = None -> App.outputCard r = None).
Proof.
  unfold App.outputCard, App.outputRenders.
  destruct (Api.res_animal r) as [a|]; simpl;
    [|split; [split; [intros [c H]|intros H]; discriminate|reflexivity]].
  destruct (Api.res_risk r) as [k|]; simpl;
    [|split; [split; [intros [c H]|intros H]; discriminate|reflexivity]].
  destruct (Api.res_symptoms r) as [ss|]; simpl;
    [|split; [rewrite andb_false_r;
              split; [intros [c H]|intros H]; discriminate|reflexivity]].
  destruct (Api.res_predictions r) as [ps|]; simpl;
    [|split; [rewrite andb_false_r;
              split; [intros [c H]|intros H]; discriminate|reflexivity]].
  rewrite andb_true_r, <- (rowsFrom_Some 0 ps).
  split.
  - destruct (displayOf (Api.overall k)) as [label|]; simpl;
      [|split; [intros [c H]|intros H]; discriminate].
    destruct (App.rowsFrom 0 ps); simpl; split; eauto; try discriminate.
    intros [c H]; discriminate.
  - intros k' o E O D; injection E as <-.
    rewrite O; simpl; rewrite D; reflexivity.
Qed.

Lemma card_renders_iff_witness :
  (exists c, App.outputCard (B := plainLowerCase) Sample.footRot = Some c) /\
  App.outputCard (B := plainLowerCase) Sample.unlabelledRisk = None.
Proof.
  split.
  - apply (@card_renders_iff plainLowerCase Sample.footRot); reflexivity.
  - destruct (@card_renders_iff plainLowerCase Sample.unlabelledRisk)
      as [_ H].
    apply (H (Api.mkRisk (Some (mkDescriptor None None None)) None)
             (mkDescriptor None None None)); reflexivity.
Defined.

(** When the card renders, its table has one row per prediction, in the
    order of the response, each with the display label of the disease and
    the probability of that prediction; the first row, and only the first,
    is the highlighted one; the class of the risk badge is the one
    [RiskBadge] gives for the label shown. *)
Theorem card_rows_follow_response
        {B : StringBuiltins} (r : Api.PredictionResult) (c : App.Card) :
  App.outputCard r = Some c ->
  exists ps,
    Api.res_predictions r = Some ps /\
    Forall2 (fun p row =>
               option_map (fun d => App.textOf (d_display d)) (Api.disease p)
               = Some (App.row_disease row) /\
               App.row_percent row = Api.probability_percent p)
            ps (App.card_rows c) /\
    (forall j row, nth_error (App.card_rows c) j = Some row ->
                   App.row_highlight row = (j =? 0)) /\
    App.card_riskClass c = App.RiskBadge (App.card_riskLabel c).
Proof.
  unfold App.outputCard.
  destruct (Api.res_animal r) as [a|]; [|discriminate].
  destruct (Api.res_risk r) as [k|]; [|discriminate].
  destruct (Api.res_symptoms r) as [ss|]; [|discriminate].
  destruct (Api.res_predictions r) as [ps|]; [|discriminate].
  destruct (displayOf (Api.overall k)) as [label|]; [|discriminate].
  destruct (App.rowsFrom 0 ps) as [rows|] eqn:E; [|discriminate].
  intros H; injection H as <-; simpl.
  destruct (rowsFrom_rows 0 ps E) as [F N].
  exists ps; repeat split; assumption.
Qed.

Lemma card_rows_follow_response_witness :
  exists c,
    App.outputCard (B := plainLowerCase) Sample.footRot = Some c /\
    map App.row_disease (App.card_rows c) = [js "Foot Rot"] /\
    App.card_riskClass c
    = App.RiskBadge (B := plainLowerCase) (App.card_riskLabel c).
Proof.
  destruct (App.outputCard (B := plainLowerCase) Sample.footRot)
    as [c|] eqn:E; [|vm_compute in E; discriminate].
  exists c; split; [reflexivity|].
  destruct (@card_rows_follow_response plainLowerCase Sample.footRot c E)
    as (ps & _ & _ & _ & K).
  split; [|exact K].
  vm_compute in E; injection E as <-; reflexivity.
Defined.

(** PredictionResult shows what the card of App shows, whenever that card
    renders: the same animal text, the same disease names in the same
    order and the same risk label, except that a text that is the empty
    string is replaced by a dash. *)
Theorem views_agree
        {B : StringBuiltins} (r : Api.PredictionResult) (c : App.Card) :
  App.outputCard r = Some c ->
  PredictionResult.animalText r
  = PredictionResult.orDash (Some (App.card_animal c)) /\
  PredictionResult.diseaseNames r
  = Some (map (fun row => PredictionResult.orDash (Some (App.row_disease row)))
              (App.card_rows c)) /\
  PredictionResult.riskChip r
  = (PredictionResult.orDash (Some (App.card_riskLabel c)),
     PredictionResult.riskColor (Some (App.card_riskLabel c))).
Proof.
  assert (T : forall o,
             PredictionResult.orDash o
             = PredictionResult.orDash (Some (App.textOf o))).
  { intros [x|]; reflexivity. }
  unfold App.outputCard, PredictionResult.animalText,
    PredictionResult.diseaseNames, PredictionResult.riskChip,
    PredictionResult.riskDisplay.
  destruct (Api.res_animal r) as [a|]; [|discriminate].
  destruct (Api.res_risk r) as [k|]; [|discriminate].
  destruct (Api.res_symptoms r) as [ss|]; [|discriminate].
  destruct (Api.res_predictions r) as [ps|]; [|discriminate].
  destruct (displayOf (Api.overall k)) as [label|]; [|discriminate].
  destruct (App.rowsFrom 0 ps) as [rows|] eqn:E; [|discriminate].
  intros H; injection H as <-; simpl.
  split; [apply T|split; [|reflexivity]].
  destruct (rowsFrom_rows 0 ps E) as [F _].
  f_equal; clear E; induction F as [|p row ps rows [D _] F IH]; simpl;
    [reflexivity|].
  rewrite <- IH; f_equal.
  destruct (Api.disease p) as [d|]; [|discriminate].
  injection D as <-; apply T.
Qed.

Lemma views_agree_witness :
  PredictionResult.diseaseNames Sample.footRot = Some [js "Foot Rot"] /\
  snd (PredictionResult.riskChip (B := plainLowerCase) Sample.footRot)
  = "error"%string.
Proof.
  destruct (App.outputCard (B := plainLowerCase) Sample.footRot)
    as [c|] eqn:E; [|vm_compute in E; discriminate].
  destruct (@views_agree plainLowerCase Sample.footRot c E) as (_ & D & K).
  vm_compute in E; injection E as <-.
  rewrite D, K; split; reflexivity.
Defined.

(** The two risk classifications do not contradict each other: a label
    that [RiskBadge] styles as high is coloured "error" by [riskColor], one
    it styles as medium is coloured "error" or "warning", and a label that
    [riskColor] colours "success" or "default" is styled as low. *)
Theorem badge_and_colour_agree {B : StringBuiltins} (label : jsstring) :
  (App.RiskBadge label = "badge badge-high"%string ->
   PredictionResult.riskColor (Some label) = "error"%string) /\
  (App.RiskBadge label = "badge badge-med"%string ->
   PredictionResult.riskColor (Some label) = "error"%string \/
   PredictionResult.riskColor (Some label) = "warning"%string) /\
  (PredictionResult.riskColor (Some label) = "success"%string \/
   PredictionResult.riskColor (Some label) = "default"%string ->
   App.RiskBadge label = "badge badge-low"%string).
Proof.
  unfold App.RiskBadge, PredictionResult.riskColor.
  set (t := toLowerCase label).
  assert (H1 : includes t (js "high risk") = true ->
               includes t (js "high") = true).
  { apply includes_trans; vm_compute; reflexivity. }
  assert (H2 : includes t (js "medium risk") = true ->
               includes t (js "medium") = true).
  { apply includes_trans; vm_compute; reflexivity. }
  destruct (includes t (js "high risk"));
    [rewrite (H1 eq_refl); repeat split; auto;
     intros [H | H]; discriminate|].
  destruct (includes t (js "medium risk")).
  - rewrite (H2 eq_refl).
    destruct (includes t (js "high")); repeat split; auto;
      try discriminate; intros [H | H]; discriminate.
  - repeat split; discriminate.
Qed.

Lemma badge_and_colour_agree_witness :
  PredictionResult.riskColor (B := plainLowerCase) (Some (js "High Risk"))
  = "error"%string.
Proof.
  apply (@badge_and_colour_agree plainLowerCase (js "High Risk")).
  vm_compute; reflexivity.
Defined.

(** ** The selection on the page *)

(** Whatever the events (clicks on symptoms, pill removals, Clear, Predict
    and answers of the service, in any order), the selection of the page
    holds at most 8 identifiers and none twice, so that the counter never
    shows more than 8 of 8. *)
Theorem page_selection_bounded (es : list App.Event) (w : App.World) :
  App.run App.mounted es = Some w ->
  length (App.selected (App.ui w)) <= 8 /\ NoDup (App.selected (App.ui w)).
Proof.
  intros R.
  destruct (Consistent_run es Consistent_mounted R) as (L & D & _).
  split; assumption.
Qed.

Lemma page_selection_bounded_witness :
  length (App.selected (App.ui (Sample.pageAfter Sample.resultThenTwo))) <= 8.
Proof.
  apply (@page_selection_bounded Sample.resultThenTwo).
  vm_compute; reflexivity.
Defined.
